(** * Travis CI descriptor scanner: a shallow embedding of
    [lib/element/travis/travisScanner.ts] and the properties of its
    decode-and-normalize transformation.

    The scanner reads [.travis.yml], decodes it (YAML first, JSON as a
    fallback), normalizes the decoded object into a [TravisCi] record and
    classifies it as emulatable or not.  Every failure inside the [try]
    block is caught, logged once and turned into [undefined]. *)

From Stdlib Require Import ZArith Ascii String.
From stdpp Require Import base option list gmap strings fin_maps.

#[local] Set Warnings "-register-all".
Local Open Scope Z_scope.
Local Open Scope string_scope.

(** ** ECMAScript values *)

Module JS.

(** A number is kept abstract: the scanner only tests a number for
    truthiness and, when one is used as a property key, converts it to a
    string.  [number_is_falsy] holds for [+0], [-0] and [NaN];
    [number_to_string] is the result of the language's Number-to-String
    conversion. *)
Record number := Number {
  number_is_falsy : bool;
  number_to_string : string;
}.

(** The structural values the two parsers hand back, plus [undefined],
    which a property read of a missing key produces.  A string is a sequence
    of code units, here of one byte each.  An object is the finite map of its
    own properties. *)
Inductive value :=
  | VUndefined
  | VNull
  | VBool (b : bool)
  | VNum (n : number)
  | VStr (s : string)
  | VArr (elems : list value)
  | VObj (props : gmap string value).

(** The empty object literal [{}]. *)
Definition empty_object : value := VObj ∅.

(** ToBoolean: what [x ? a : b], [x || y] and [!!x] inspect. *)
Definition truthy (v : value) : bool :=
  match v with
  | VUndefined | VNull => false
  | VBool b => b
  | VNum n => negb (number_is_falsy n)
  | VStr s => negb (String.eqb s EmptyString)
  | VArr _ | VObj _ => true
  end.

(** [typeof v === "string"]. *)
Definition is_string (v : value) : bool :=
  match v with VStr _ => true | _ => false end.

(** [Array.isArray(v)]. *)
Definition is_array (v : value) : bool :=
  match v with VArr _ => true | _ => false end.

(** [x || y]. *)
Definition or_else (x y : value) : value := if truthy x then x else y.

End JS.

(** ** Strings

    The string methods the scanner calls, with the index arithmetic of the
    language: indices are integers, [indexOf] answers [-1] for a miss, and
    [substring] clamps both indices to the string and swaps them when the
    first is the larger. *)

Module JSString.

(** The one-character string holding a double quote. *)
Definition dquote : string := String "034"%char EmptyString.

(** [s.length] *)
Definition length (s : string) : Z := Z.of_nat (String.length s).

(** [s.indexOf(pat)] *)
Definition indexOf (s pat : string) : Z :=
  match String.index 0 pat s with
  | Some i => Z.of_nat i
  | None => -1
  end.

(** [s.startsWith(pat)] *)
Definition startsWith (s pat : string) : bool := String.prefix pat s.

(** [s.endsWith(pat)]; the scanner does not call it, the statements about
    quoted values do. *)
Definition endsWith (s pat : string) : bool :=
  let start := Z.of_nat (String.length s) - Z.of_nat (String.length pat) in
  if Z.ltb start 0 then false
  else String.eqb
         (String.substring (Z.to_nat start) (String.length pat) s) pat.

Definition clamp (len i : Z) : Z := Z.min (Z.max i 0) len.

(** [s.substring(start, end)] *)
Definition substring (s : string) (start end_ : Z) : string :=
  let len := length s in
  let a := clamp len start in
  let b := clamp len end_ in
  let from := Z.min a b in
  let to := Z.max a b in
  String.substring (Z.to_nat from) (Z.to_nat (to - from)) s.

(** [s.substring(start)]: the end defaults to the length. *)
Definition substring_from (s : string) (start : Z) : string :=
  substring s start (length s).

(** The characters a [for ... of] loop over a string yields, each a
    one-character string. *)
Fixpoint chars (s : string) : list string :=
  match s with
  | EmptyString => []
  | String c r => String c EmptyString :: chars r
  end.

End JSString.

(** ** Exceptions

    A thrown error carries a name and a message.  The texts of the
    [TypeError]s the runtime itself throws are engine-defined; no statement
    below depends on them. *)

Record error := Error {
  error_name : string;
  message : string;
}.

Definition TypeError (msg : string) : error := Error "TypeError" msg.

(** The outcome of evaluating an expression or a block: a value or a thrown
    error. *)
Inductive result (A : Type) :=
  | Ok (a : A)
  | Throw (e : error).
Arguments Ok {A} a.
Arguments Throw {A} e.

Definition result_bind {A B} (r : result A) (k : A -> result B) : result B :=
  match r with
  | Ok a => k a
  | Throw e => Throw e
  end.

Notation "'let*' x ':=' r 'in' k" := (result_bind r (fun x => k))
  (at level 10, x name, r at level 100, k at level 200).

(** A [for ... of] loop whose body updates one accumulator and may throw:
    the first throw leaves the loop. *)
Fixpoint for_of {A S} (body : S -> A -> result S) (xs : list A) (acc : S)
  : result S :=
  match xs with
  | [] => Ok acc
  | x :: rest => let* acc' := body acc x in for_of body rest acc'
  end.

(** ** Objects and property access *)

Module Obj.
Import JS.

(** [v.k] for a key [k] that no built-in prototype defines (true of every
    key the scanner reads: [env], [services], [branches], [only], [except],
    [language], [script], [addons], [before_install], [after_success],
    [node_js]).  Reading a property of [undefined] or [null] throws; an
    object answers its own property or [undefined]; a primitive or an array
    has no such property. *)
Definition get (v : value) (k : string) : result value :=
  match v with
  | VUndefined =>
      Throw (TypeError ("Cannot read property '" ++ k ++ "' of undefined"))
  | VNull => Throw (TypeError ("Cannot read property '" ++ k ++ "' of null"))
  | VObj props => Ok (default VUndefined (props !! k))
  | VBool _ | VNum _ | VStr _ | VArr _ => Ok VUndefined
  end.

(** [o[k] = v] on an object created by the literal [{}], as the map of own
    properties.  The key [__proto__] names the accessor inherited from
    [Object.prototype]: assigning through it creates no own property. *)
Definition set {A} (k : string) (v : A) (o : gmap string A) : gmap string A :=
  if decide (k = "__proto__") then o else <[k := v]> o.

(** The values a [for (const e of v)] loop visits.  Arrays and strings are
    iterable; every other value throws. *)
Definition iterate (v : value) : result (list value) :=
  match v with
  | VArr elems => Ok elems
  | VStr s => Ok (VStr <$> JSString.chars s)
  | _ => Throw (TypeError "object is not iterable")
  end.

(** ToString, which a computed property key [o[e]] goes through.  An array
    joins its elements with commas, [null] and [undefined] elements giving
    the empty string.  An object answers through the inherited [toString]
    unless an own property of that name (never callable in a parsed
    document) hides it. *)
Fixpoint to_string (v : value) : result string :=
  match v with
  | VUndefined => Ok "undefined"
  | VNull => Ok "null"
  | VBool b => Ok (if b then "true" else "false")
  | VNum n => Ok (number_to_string n)
  | VStr s => Ok s
  | VArr elems =>
      let* parts :=
        (fix join_parts (l : list value) : result (list string) :=
           match l with
           | [] => Ok []
           | x :: rest =>
               let* p := match x with
                         | VUndefined | VNull => Ok EmptyString
                         | _ => to_string x
                         end in
               let* ps := join_parts rest in
               Ok (p :: ps)
           end) elems in
      Ok (String.concat "," parts)
  | VObj props =>
      match props !! "toString" with
      | Some _ => Throw (TypeError "Cannot convert object to primitive value")
      | None => Ok "[object Object]"
      end
  end.

End Obj.

(** ** The descriptor model *)

Import JS.

(** Travis rules for building branches. *)
Record TravisBranchRules := {
  except : list value;
  only : list value;
}.

(** [BoundEnvironmentVariables = Record<string, string>] *)
Abbreviation BoundEnvironmentVariables := (gmap string string).

(** [Services]: a record from a service name to its configuration. *)
Abbreviation Services := (gmap string value).

(** What is known about Travis CI from the travis.yml file.  The
    string-array fields hold whatever values the document holds: their
    declared element type is not checked when the program runs. *)
Record TravisCi := {
  name : string;
  projectName : string;
  branches : option TravisBranchRules;
  language : value;
  scripts : list value;
  env : BoundEnvironmentVariables;
  addons : value;
  beforeInstall : list value;
  afterSuccess : list value;
  services : Services;
  referencedEnvironmentVariables : list string;
  tags : list string;
  nodeJs : list value;
  canEmulate : option bool;
}.

(** [travis.canEmulate = b] *)
Definition set_canEmulate (travis : TravisCi) (b : bool) : TravisCi :=
  {| name := name travis;
     projectName := projectName travis;
     branches := branches travis;
     language := language travis;
     scripts := scripts travis;
     env := env travis;
     addons := addons travis;
     beforeInstall := beforeInstall travis;
     afterSuccess := afterSuccess travis;
     services := services travis;
     referencedEnvironmentVariables := referencedEnvironmentVariables travis;
     tags := tags travis;
     nodeJs := nodeJs travis;
     canEmulate := Some b |}.

(** Do we use unsupported features of Travis CI? *)
Definition usesUnsupportedFeatures (travis : TravisCi) : bool :=
  if negb (negb (truthy (addons travis))) then
    (* We can't emulate Travis addons, at least for now *)
    true
  else false.

(** Modelled from the spec: [toStringArray], imported from
    [@atomist/automation-client] and absent from the sources.  The spec's
    coercion rule: a scalar gives a single-element sequence, a sequence
    gives itself, an absent value gives the empty sequence.  A mapping, on
    which the rule is silent, is kept as one element. *)
Definition toStringArray (v : value) : list value :=
  match v with
  | VUndefined | VNull => []
  | VArr elems => elems
  | _ => [v]
  end.

(** [x ? toStringArray(x) : []] *)
Definition string_array_or_empty (x : value) : list value :=
  if truthy x then toStringArray x else [].

(** ** Normalization: the body of the scanner's [try] block after decoding *)

(** One round of the loop over [env].  Format is [DB=postgres]. *)
Definition env_entry (env : BoundEnvironmentVariables) (e : value)
  : result BoundEnvironmentVariables :=
  match e with
  | VStr e =>
      let key := JSString.substring e 0 (JSString.indexOf e "=") in
      let value := JSString.substring_from e (JSString.length key + 1) in
      let value :=
        if JSString.startsWith value JSString.dquote
        then JSString.substring value 1 (JSString.length value - 1)
        else value in
      Ok (Obj.set key value env)
  | VUndefined | VNull =>
      Throw (TypeError "Cannot read property 'substring' of null")
  | VArr _ => Throw (TypeError "e.substring is not a function")
  | VBool _ | VNum _ | VObj _ =>
      Throw (TypeError "e.indexOf is not a function")
  end.

(** One round of the loop over a [services] list. *)
Definition services_entry (services : Services) (e : value) : result Services :=
  let* key := Obj.to_string e in
  Ok (Obj.set key empty_object services).

(** Lines 99 to 108. *)
Definition scan_env (nativeObject : value) : result BoundEnvironmentVariables :=
  let* raw := Obj.get nativeObject "env" in
  let* entries := Obj.iterate (or_else raw (VArr [])) in
  for_of env_entry entries ∅.

(** Lines 110 to 118.  Services can be a single value or list. *)
Definition scan_services (nativeObject : value) : result Services :=
  let* raw := Obj.get nativeObject "services" in
  match raw with
  | VStr s => Ok (Obj.set s empty_object ∅)
  | _ =>
      let* entries := Obj.iterate (or_else raw (VArr [])) in
      for_of services_entry entries ∅
  end.

(** Lines 120 to 125. *)
Definition scan_branches (nativeObject : value)
  : result (option TravisBranchRules) :=
  let* raw := Obj.get nativeObject "branches" in
  if truthy raw then
    let* o := Obj.get raw "only" in
    let* x := Obj.get raw "except" in
    Ok (Some {| only := string_array_or_empty o;
                except := string_array_or_empty x |})
  else Ok None.

(** Lines 99 to 151: from the decoded object to the descriptor. *)
Definition normalize (projectName : string) (nativeObject : value)
  : result TravisCi :=
  let* env := scan_env nativeObject in
  let* services := scan_services nativeObject in
  let* branches := scan_branches nativeObject in
  let* language := Obj.get nativeObject "language" in
  let* script := Obj.get nativeObject "script" in
  let* addons := Obj.get nativeObject "addons" in
  let* before_install := Obj.get nativeObject "before_install" in
  let* after_success := Obj.get nativeObject "after_success" in
  let* node_js := Obj.get nativeObject "node_js" in
  let travis :=
    {| name := "travis";
       projectName := projectName;
       branches := branches;
       language := language;
       scripts := string_array_or_empty script;
       env := env;
       addons := addons;
       beforeInstall := string_array_or_empty before_install;
       afterSuccess := string_array_or_empty after_success;
       services := services;
       referencedEnvironmentVariables := [];
       tags := ["travis"];
       nodeJs := string_array_or_empty node_js;
       canEmulate := None |} in
  Ok (set_canEmulate travis (negb (usesUnsupportedFeatures travis))).

(** ** The scanner and its collaborators *)

(** What the scanner does to the world outside it: it calls the two parsers
    and the logger.  The trace records these calls in order. *)
Inductive event :=
  | YamlParse (content : string)
  | JsonParse (content : string)
  | LoggerWarn (format : string) (args : list string).

(** A computation that may throw and that appends to the trace. *)
Definition M (A : Type) : Type := list event -> result A * list event.

Definition ret {A} (a : A) : M A := fun tr => (Ok a, tr).

Definition bind {A B} (m : M A) (k : A -> M B) : M B :=
  fun tr =>
    match m tr with
    | (Ok a, tr') => k a tr'
    | (Throw e, tr') => (Throw e, tr')
    end.

(** [try { m } catch (e) { handler e }] *)
Definition try_catch {A} (m : M A) (handler : error -> M A) : M A :=
  fun tr =>
    match m tr with
    | (Ok a, tr') => (Ok a, tr')
    | (Throw e, tr') => handler e tr'
    end.

Definition emit (ev : event) : M unit := fun tr => (Ok tt, (tr ++ [ev])%list).

Definition lift {A} (r : result A) : M A := fun tr => (r, tr).

Notation "'let!' x ':=' m 'in' k" := (bind m (fun x => k))
  (at level 10, x name, m at level 100, k at level 200).

(** The two parsers, [yaml.parse] of yamljs and the built-in [JSON.parse]:
    each returns the parsed structure or throws. *)
Class Parsers := {
  yaml_parse : string -> result value;
  JSON_parse : string -> result value;
}.

(** A file of the project: [getContent] resolves to the text or rejects. *)
Record File := {
  getContent : result string;
}.

Module Project.
(** The project handed to a scanner: its name and the lookup of a file by
    path, [undefined] when there is none. *)
Record t := {
  name : string;
  getFile : string -> option File;
}.
End Project.

(** [logger.warn(format, arg)] *)
Definition logger_warn (format : string) (arg : string) : M unit :=
  emit (LoggerWarn format [arg]).

Section Scanner.
Context `{Parsers}.

(** First try to parse as YAML then try as JSON (yes, this is legal!) *)
Definition tryAsYamlThenJson (content : string) : M value :=
  try_catch
    (let! _ := emit (YamlParse content) in lift (yaml_parse content))
    (fun _ => let! _ := emit (JsonParse content) in lift (JSON_parse content)).

(** Scan for Travis information. *)
Definition travisScanner (p : Project.t) : M (option TravisCi) :=
  match Project.getFile p ".travis.yml" with
  | None => ret None
  | Some travisYaml =>
      try_catch
        (let! content := lift (getContent travisYaml) in
         let! nativeObject := tryAsYamlThenJson content in
         let! travis := lift (normalize (Project.name p) nativeObject) in
         ret (Some travis))
        (fun e =>
           let! _ := logger_warn "Cannot parse YAML file: %s" (message e) in
           ret None)
  end.

End Scanner.

(** The diagnostics in a trace. *)
Definition is_warning (ev : event) : bool :=
  match ev with LoggerWarn _ _ => true | _ => false end.

Definition warnings (tr : list event) : list event := filter is_warning tr.

(** ** Reading the source's expressions by name

    The expressions of the [env] loop, named so that statements can mention
    them. *)

(** [e.substring(0, e.indexOf("="))] *)
Definition entry_key (e : string) : string :=
  JSString.substring e 0 (JSString.indexOf e "=").

(** The quote-stripping step: a value that starts with a double quote loses
    its first and its last character. *)
Definition unquote (value : string) : string :=
  if JSString.startsWith value JSString.dquote
  then JSString.substring value 1 (JSString.length value - 1)
  else value.

(** The value the loop stores for the entry [e]. *)
Definition entry_value (e : string) : string :=
  unquote (JSString.substring_from e (JSString.length (entry_key e) + 1)).

(** What one round of the loop does to the mapping, on a string entry. *)
Definition env_round (m : gmap string string) (e : string)
  : gmap string string :=
  Obj.set (entry_key e) (entry_value e) m.

(** Whether a [for ... of] loop accepts the value. *)
Definition iterable (v : value) : bool :=
  match v with VArr _ | VStr _ => true | _ => false end.

(** A boolean, a number or a string. *)
Definition is_scalar (v : value) : bool :=
  match v with VBool _ | VNum _ | VStr _ => true | _ => false end.

(** A string without its first character. *)
Definition string_tail (s : string) : string :=
  match s with EmptyString => EmptyString | String _ r => r end.

(** The document with the given top-level keys. *)
Definition document (l : list (string * value)) : value := VObj (list_to_map l).

(** The relation between a scalar-or-list source value and the sequence
    stored for it: a list is stored as it is, a truthy scalar as a
    single-element sequence, and a falsy value ([undefined], [null],
    [false], a zero or NaN number, the empty string) as the empty sequence. *)
Definition coerced (v : value) (out : list value) : Prop :=
  (forall l, v = VArr l -> out = l) /\
  (is_scalar v = true -> truthy v = true -> out = [v]) /\
  (truthy v = false -> out = []).

(** A descriptor to fall back on where an example needs one. *)
Definition blank_descriptor : TravisCi :=
  {| name := "travis"; projectName := EmptyString; branches := None;
     language := VUndefined; scripts := []; env := ∅; addons := VUndefined;
     beforeInstall := []; afterSuccess := []; services := ∅;
     referencedEnvironmentVariables := []; tags := []; nodeJs := [];
     canEmulate := None |}.

(** The descriptor of a document that normalizes. *)
Definition descriptor_of (pn : string) (o : value) : TravisCi :=
  match normalize pn o with
  | Ok t => t
  | Throw _ => blank_descriptor
  end.

(** Example documents. *)
Definition addons_false_document : value :=
  document [("language", VStr "node_js"); ("addons", VBool false)].

Definition addons_browser_document : value :=
  document [("language", VStr "node_js");
            ("addons", document [("chrome", VStr "stable")])].

Definition empty_script_document : value :=
  document [("language", VStr "ruby"); ("script", VStr EmptyString)].

Definition node_document : value :=
  document [("language", VStr "node_js");
            ("node_js", VNum (Number false "8"));
            ("script", VArr [VStr "npm run lint"; VStr "npm test"]);
            ("before_install", VStr "npm install -g npm")].

Definition branches_false_document : value :=
  document [("branches", VBool false)].

Definition branches_master_document : value :=
  document [("branches",
             document [("only", VStr "master");
                       ("except", VArr [VStr "legacy"; VStr "wip"])])].

Definition env_document (entries : list string) : value :=
  document [("env", VArr (VStr <$> entries))].

Definition db_entry : string := "DB=postgres".

Definition token_entry : string :=
  "TOKEN=" ++ JSString.dquote ++ "abc123" ++ JSString.dquote.

Definition services_document (raw : value) : value :=
  document [("language", VStr "python"); ("services", raw)].

Definition unbalanced_entry : string := "X=" ++ JSString.dquote ++ "abc".

Definition bare_entry : string := "FOO".

Definition quoted_bare_entry : string :=
  "x" ++ JSString.dquote ++ "abc" ++ JSString.dquote.

(** The diagnostic the scanner logs for a caught error. *)
Definition diagnostic (e : error) : event :=
  LoggerWarn "Cannot parse YAML file: %s" [message e].

(** Decoded structures and texts for the scanner examples. *)
Definition nested_brackets : value :=
  VArr [VArr [VArr [VArr [VNum (Number false "1")]]]].

Definition env_global_document : value :=
  document [("language", VStr "node_js");
            ("env", document [("global", VArr [VStr "A=1"])])].

Definition malformed_text : string := "language: [".

Definition env_global_text : string :=
  "{language: node_js, env: {global: [A=1]}}".

(** A stand-in for the two parsers on a handful of texts, for the examples:
    a YAML document, a YAML document whose [env] is a mapping, a nested
    bracket literal that only the JSON parser takes, and a text that neither
    parser takes. *)
Definition sample_yaml (content : string) : result value :=
  if String.eqb content "language: ruby"
  then Ok (document [("language", VStr "ruby")])
  else if String.eqb content env_global_text
  then Ok env_global_document
  else Throw (Error "ParseException" "Malformed inline YAML string").

Definition sample_json (content : string) : result value :=
  if String.eqb content "[[[[1]]]]" then Ok nested_brackets
  else Throw (Error "SyntaxError" "Unexpected token in JSON at position 0").

Definition sample_parsers : Parsers :=
  {| yaml_parse := sample_yaml; JSON_parse := sample_json |}.

(** A project holding one descriptor file with the given text, and a
    project without one. *)
Definition project_with (name content : string) : Project.t :=
  {| Project.name := name;
     Project.getFile path :=
       if String.eqb path ".travis.yml"
       then Some {| getContent := Ok content |}
       else None |}.

Definition project_without (name : string) : Project.t :=
  {| Project.name := name; Project.getFile _ := None |}.

(** A project whose descriptor file cannot be read. *)
Definition read_error : error := Error "Error" "EACCES: permission denied".

Definition project_unreadable (name : string) : Project.t :=
  {| Project.name := name;
     Project.getFile _ := Some {| getContent := Throw read_error |} |}.

(** ** The env rule in the words of the specification

    Each entry is a string of the form KEY=VALUE; it is split at the first
    [=]; a value wrapped in one leading and one trailing double quote loses
    exactly those two characters; the mapping takes the key to the resulting
    value. *)

Module Spec.

(** Split at the first [=]; [None] when there is none. *)
Fixpoint split_at_first_eq (e : string) : option (string * string) :=
  match e with
  | EmptyString => None
  | String c r =>
      if Ascii.eqb c "="%char then Some (EmptyString, r)
      else match split_at_first_eq r with
           | Some (k, v) => Some (String c k, v)
           | None => None
           end
  end.

(** [strip_trailing_quote s = Some m] when [s] is [m] followed by one double
    quote. *)
Fixpoint strip_trailing_quote (s : string) : option string :=
  match s with
  | EmptyString => None
  | String c EmptyString =>
      if Ascii.eqb c "034"%char then Some EmptyString else None
  | String c r =>
      match strip_trailing_quote r with
      | Some m => Some (String c m)
      | None => None
      end
  end.

(** A value wrapped in a pair of double quotes loses the pair; any other
    value is kept. *)
Definition strip_quote_pair (v : string) : string :=
  match v with
  | EmptyString => v
  | String c r =>
      if Ascii.eqb c "034"%char
      then default v (strip_trailing_quote r)
      else v
  end.

(** Whether the value starts with a double quote that no closing double
    quote matches: the case the specification leaves open. *)
Definition unbalanced (v : string) : bool :=
  match v with
  | String c (String d r) =>
      Ascii.eqb c "034"%char &&
      match strip_trailing_quote (String d r) with
      | Some _ => false
      | None => true
      end
  | _ => false
  end.

(** One entry added to the mapping; an entry without [=] is outside the
    rule and leaves the mapping alone. *)
Definition add_entry (m : gmap string string) (e : string)
  : gmap string string :=
  match split_at_first_eq e with
  | Some (k, v) => <[k := strip_quote_pair v]> m
  | None => m
  end.

Definition env_mapping (entries : list string) : gmap string string :=
  foldl add_entry ∅ entries.

(** An entry the rule covers: of the form KEY=VALUE, with a key that an
    object can hold as an own property and a value whose quoting is
    balanced. *)
Definition covered (e : string) : Prop :=
  exists k v, split_at_first_eq e = Some (k, v) /\
              k <> "__proto__" /\ unbalanced v = false.

End Spec.

(** ** Writing entries

    The text of the entry KEY=VALUE and a value between two double quotes. *)

Definition key_value (k v : string) : string := k ++ "=" ++ v.

Definition quoted (v : string) : string :=
  JSString.dquote ++ v ++ JSString.dquote.

(** ** Further example documents *)


Definition env_mixed_document : value :=
  document [("env", VArr [VStr "DB=postgres";
                          document [("secure", VStr "c2VjcmV0")]])].

Definition db_again_entry : string := "DB=mysql".

Definition url_entry : string := "URL=http://host/?a=b".

Definition quoted_url_entry : string :=
  "URL=" ++ JSString.dquote ++ "http://host/?a=b" ++ JSString.dquote.

Definition services_mapping_document : value :=
  document [("language", VStr "python");
            ("services", document [("redis", document [("image", VStr "redis:5")])])].

Definition services_mapping_text : string :=
  "{language: python, services: {redis: {image: 'redis:5'}}}".

Definition scalar_text : string := "just some words".

Definition empty_text : string := EmptyString.

Definition browser_text : string :=
  "{language: node_js, addons: {chrome: stable}}".

(** A second stand-in for the parsers: the YAML parser takes the three
    mappings and the bare scalar above and gives [null] for an empty text;
    the JSON parser takes the empty mapping only. *)
Definition catalogue_yaml (content : string) : result value :=
  if String.eqb content empty_text then Ok VNull
  else if String.eqb content scalar_text then Ok (VStr scalar_text)
  else if String.eqb content services_mapping_text
  then Ok services_mapping_document
  else if String.eqb content browser_text then Ok addons_browser_document
  else Throw (Error "ParseException" "Unable to parse.").

Definition catalogue_json (content : string) : result value :=
  if String.eqb content "{}" then Ok (VObj ∅)
  else Throw (Error "SyntaxError" "Unexpected end of JSON input").

Definition catalogue_parsers : Parsers :=
  {| yaml_parse := catalogue_yaml; JSON_parse := catalogue_json |}.

(** The descriptor of a document that holds none of the keys read. *)
Definition empty_descriptor (pn : string) : TravisCi :=
  {| name := "travis"; projectName := pn; branches := None;
     language := VUndefined; scripts := []; env := ∅; addons := VUndefined;
     beforeInstall := []; afterSuccess := []; services := ∅;
     referencedEnvironmentVariables := []; tags := ["travis"]; nodeJs := [];
     canEmulate := Some true |}.

(** Whether the decoded value is [undefined] or [null]. *)
Definition nullish (v : value) : bool :=
  match v with VUndefined | VNull => true | _ => false end.

Definition branches_name_document : value :=
  document [("language", VStr "go"); ("branches", VStr "master")].

(** Whether ToString answers on the value. *)
Definition stringable (v : value) : bool :=
  match Obj.to_string v with Ok _ => true | Throw _ => false end.

(** The [env] values the loop of lines 99 to 108 accepts: a falsy value, a
    string, or a list whose entries are all strings. *)
Definition env_accepted (raw : value) : bool :=
  negb (truthy raw) ||
  match raw with
  | VStr _ => true
  | VArr entries => forallb is_string entries
  | _ => false
  end.

(** The [services] values lines 110 to 118 accept: a string, a falsy
    value, or a list whose elements all convert to a property key. *)
Definition services_accepted (raw : value) : bool :=
  is_string raw || negb (truthy raw) ||
  match raw with
  | VArr elems => forallb stringable elems
  | _ => false
  end.

(** The decoded values that normalize. *)
Definition normalizable (o : value) : bool :=
  match o with
  | VUndefined | VNull => false
  | VObj props =>
      env_accepted (default VUndefined (props !! "env")) &&
      services_accepted (default VUndefined (props !! "services"))
  | VBool _ | VNum _ | VStr _ | VArr _ => true
  end.

Definition lone_quote_entry : string := "X=" ++ JSString.dquote.

Definition services_empty_name_document : value :=
  document [("services", VStr EmptyString); ("env", VStr EmptyString)].

(** * Properties *)

(** ** String arithmetic *)

Section StringFacts.
Local Open Scope nat_scope.

Lemma substring_all (s : string) :
  String.substring 0 (String.length s) s = s.
Proof. induction s as [|c s IH]; simpl; [done | by rewrite IH]. Qed.

Lemma substring_prefix (k r : string) :
  String.substring 0 (String.length k) (k ++ r) = k.
Proof.
  induction k as [|c k IH]; simpl.
  - by destruct r.
  - by rewrite IH.
Qed.

Lemma substring_skip (k r : string) (n : nat) :
  String.substring (String.length k) n (k ++ r) = String.substring 0 n r.
Proof. induction k as [|c k IH]; simpl; [done | apply IH]. Qed.

Lemma substring_none (s : string) (n : nat) :
  String.substring n 0 s = EmptyString.
Proof.
  revert n; induction s as [|c s IH]; intros [|n]; simpl; auto.
Qed.

Lemma length_append (s r : string) :
  String.length (s ++ r) = String.length s + String.length r.
Proof. induction s as [|c s IH]; simpl; [done | by rewrite IH]. Qed.

Lemma append_empty (s : string) : s ++ EmptyString = s.
Proof.
  induction s as [|c s IH]; [done|].
  change (String c (s ++ EmptyString) = String c s). by rewrite IH.
Qed.

Lemma append_assoc (a b c : string) : (a ++ b) ++ c = a ++ b ++ c.
Proof.
  induction a as [|x a IH]; [done|].
  change (String x ((a ++ b) ++ c) = String x (a ++ b ++ c)). by rewrite IH.
Qed.

End StringFacts.

(** The first [=] found by [indexOf] is where the specification splits. *)
Lemma index_split (e : string) :
  match Spec.split_at_first_eq e with
  | Some (k, v) =>
      String.index 0 "=" e = Some (String.length k) /\ e = k ++ "=" ++ v
  | None => String.index 0 "=" e = None
  end.
Proof.
  induction e as [|c e IH]; [done|].
  cbn [Spec.split_at_first_eq String.index String.prefix].
  destruct (Ascii.eqb_spec c "="%char) as [->|Hc].
  - destruct (ascii_dec "=" "=") as [_|[]]; [|done].
    destruct e; done.
  - destruct (ascii_dec "=" c) as [<-|_]; [done|].
    destruct (Spec.split_at_first_eq e) as [[k v]|].
    + destruct IH as [-> ->]. done.
    + by rewrite IH.
Qed.

(** [substring] cuts the middle of three pieces out by their lengths. *)
Lemma substring_middle (a b c : string) :
  JSString.substring (a ++ b ++ c)
    (JSString.length a) (JSString.length a + JSString.length b) = b.
Proof.
  unfold JSString.substring, JSString.length, JSString.clamp.
  rewrite !length_append.
  set (la := String.length a); set (lb := String.length b).
  set (lc := String.length c).
  replace (Z.min _ _) with (Z.of_nat la) by lia.
  replace (Z.max _ _ - _) with (Z.of_nat lb) by lia.
  rewrite !Nat2Z.id. subst la lb.
  by rewrite substring_skip, substring_prefix.
Qed.

Lemma substring_from_suffix (a b : string) :
  JSString.substring_from (a ++ b) (JSString.length a) = b.
Proof.
  unfold JSString.substring_from.
  pose proof (substring_middle a b EmptyString) as Hm.
  rewrite append_empty in Hm.
  replace (JSString.length (a ++ b))
    with (JSString.length a + JSString.length b); [done|].
  unfold JSString.length. rewrite length_append. lia.
Qed.

Lemma substring_to_miss (e : string) : JSString.substring e 0 (-1) = EmptyString.
Proof.
  unfold JSString.substring, JSString.clamp.
  replace (Z.min (Z.min (Z.max 0 0) _) _) with 0 by (unfold JSString.length; lia).
  replace (Z.max _ _ - 0) with 0 by (unfold JSString.length; lia).
  apply substring_none.
Qed.

Lemma substring_from_one (e : string) :
  JSString.substring_from e 1 = string_tail e.
Proof.
  destruct e as [|c r]; [done|].
  change (String c r) with (String c EmptyString ++ r).
  apply (substring_from_suffix (String c EmptyString) r).
Qed.

(** ** The entry expressions on the two kinds of entry *)

Lemma entry_key_of_split (e k v : string) :
  Spec.split_at_first_eq e = Some (k, v) -> entry_key e = k.
Proof.
  intros Hs. pose proof (index_split e) as Hi. rewrite Hs in Hi.
  destruct Hi as [Hi ->].
  unfold entry_key, JSString.indexOf. rewrite Hi.
  pose proof (substring_middle EmptyString k ("=" ++ v)) as Hm.
  simpl in Hm. done.
Qed.

Lemma entry_value_of_split (e k v : string) :
  Spec.split_at_first_eq e = Some (k, v) -> entry_value e = unquote v.
Proof.
  intros Hs. unfold entry_value. rewrite (entry_key_of_split e k v Hs).
  pose proof (index_split e) as Hi. rewrite Hs in Hi. destruct Hi as [_ ->].
  f_equal.
  pose proof (substring_from_suffix (k ++ "=") v) as Hm.
  rewrite append_assoc in Hm.
  replace (JSString.length k + 1) with (JSString.length (k ++ "=")); [exact Hm|].
  unfold JSString.length. rewrite length_append. simpl. lia.
Qed.

Lemma entry_key_no_eq (e : string) :
  JSString.indexOf e "=" = -1 -> entry_key e = EmptyString.
Proof. intros Hi. unfold entry_key. rewrite Hi. apply substring_to_miss. Qed.

Lemma entry_value_no_eq (e : string) :
  JSString.indexOf e "=" = -1 -> entry_value e = unquote (string_tail e).
Proof.
  intros Hi. unfold entry_value. rewrite (entry_key_no_eq e Hi).
  simpl. by rewrite substring_from_one.
Qed.

(** The loop body on a string entry. *)
Lemma env_entry_string (m : gmap string string) (e : string) :
  env_entry m (VStr e) = Ok (Obj.set (entry_key e) (entry_value e) m).
Proof. reflexivity. Qed.

(** ** Quote stripping *)

Lemma startsWith_dquote (v : string) :
  JSString.startsWith v JSString.dquote = true ->
  exists r, v = JSString.dquote ++ r.
Proof.
  destruct v as [|c r]; [done|].
  unfold JSString.startsWith, JSString.dquote. cbn [String.prefix].
  destruct (ascii_dec "034" c) as [<-|_]; [|done].
  intros _. exists r. reflexivity.
Qed.

Lemma startsWith_dquote_cons (c : ascii) (r : string) :
  JSString.startsWith (String c r) JSString.dquote = Ascii.eqb c "034"%char.
Proof.
  unfold JSString.startsWith, JSString.dquote. cbn [String.prefix].
  destruct (ascii_dec "034" c) as [<-|Hc].
  - by destruct r.
  - symmetry. apply Ascii.eqb_neq. congruence.
Qed.

(** A value that starts with a double quote and carries at least one more
    character loses its first and its last character, whatever the last one
    is. *)
Lemma unquote_ends (mid : string) (c : ascii) :
  unquote (JSString.dquote ++ mid ++ String c EmptyString) = mid.
Proof.
  unfold unquote.
  change (JSString.dquote ++ mid ++ String c EmptyString)
    with (String "034" (mid ++ String c EmptyString)).
  rewrite startsWith_dquote_cons. simpl.
  change (String "034" (mid ++ String c EmptyString))
    with (JSString.dquote ++ mid ++ String c EmptyString).
  pose proof (substring_middle JSString.dquote mid (String c EmptyString)) as Hm.
  replace (JSString.length _ - 1)
    with (JSString.length JSString.dquote + JSString.length mid); [done|].
  unfold JSString.length. rewrite !length_append. simpl. lia.
Qed.

Lemma unquote_plain (v : string) :
  JSString.startsWith v JSString.dquote = false -> unquote v = v.
Proof. intros Hv. unfold unquote. by rewrite Hv. Qed.

(** A lone double quote stays: the two indices are swapped. *)
Lemma unquote_lone_quote : unquote JSString.dquote = JSString.dquote.
Proof. reflexivity. Qed.

Lemma strip_trailing_quote_Some (r m : string) :
  Spec.strip_trailing_quote r = Some m -> r = m ++ JSString.dquote.
Proof.
  revert m. induction r as [|c r IH]; intros m; [done|].
  destruct r as [|d r].
  - simpl. destruct (Ascii.eqb_spec c "034"%char) as [->|]; [|done].
    by intros [= <-].
  - change (Spec.strip_trailing_quote (String c (String d r)))
      with (match Spec.strip_trailing_quote (String d r) with
            | Some m => Some (String c m) | None => None end).
    destruct (Spec.strip_trailing_quote (String d r)) as [m'|]; [|done].
    intros [= <-]. by rewrite (IH m' eq_refl).
Qed.

Lemma strip_trailing_quote_app (m : string) :
  Spec.strip_trailing_quote (m ++ JSString.dquote) = Some m.
Proof.
  induction m as [|c m IH]; [done|].
  change (String c m ++ JSString.dquote) with (String c (m ++ JSString.dquote)).
  destruct (m ++ JSString.dquote) as [|d r] eqn:Hr.
  - by destruct m.
  - change (Spec.strip_trailing_quote (String c (String d r)))
      with (match Spec.strip_trailing_quote (String d r) with
            | Some m => Some (String c m) | None => None end).
    by rewrite IH.
Qed.

(** On every value whose quoting is balanced the code strips exactly what
    the specification strips. *)
Lemma unquote_balanced (v : string) :
  Spec.unbalanced v = false -> unquote v = Spec.strip_quote_pair v.
Proof.
  destruct v as [|c [|d r]]; [done| |].
  - intros _. unfold Spec.strip_quote_pair.
    destruct (Ascii.eqb_spec c "034"%char) as [->|Hc]; [done|].
    apply unquote_plain. rewrite startsWith_dquote_cons.
    by apply Ascii.eqb_neq.
  - unfold Spec.unbalanced, Spec.strip_quote_pair.
    destruct (Ascii.eqb_spec c "034"%char) as [->|Hc].
    + destruct (Spec.strip_trailing_quote (String d r)) as [m|] eqn:Hm; [|done].
      intros _. simpl. apply strip_trailing_quote_Some in Hm. rewrite Hm.
      destruct JSString.dquote as [|q w] eqn:Hq; [done|].
      injection Hq as <- <-.
      apply (unquote_ends m "034").
    + intros _. apply unquote_plain. rewrite startsWith_dquote_cons.
      by apply Ascii.eqb_neq.
Qed.

(** ** The env loop *)

Lemma for_of_env_strings (entries : list string) (m : gmap string string) :
  for_of env_entry (VStr <$> entries) m = Ok (foldl env_round m entries).
Proof.
  revert m. induction entries as [|e entries IH]; intros m; [done|].
  simpl. apply IH.
Qed.

Lemma set_lookup_ne {A} (k k' : string) (v : A) (m : gmap string A) :
  k' <> k -> Obj.set k' v m !! k = m !! k.
Proof.
  intros Hk. unfold Obj.set. case_decide; [done|].
  by rewrite lookup_insert_ne.
Qed.

Lemma set_lookup_eq {A} (k : string) (v : A) (m : gmap string A) :
  k <> "__proto__" -> Obj.set k v m !! k = Some v.
Proof.
  intros Hk. unfold Obj.set. case_decide; [done|].
  by rewrite lookup_insert_eq.
Qed.

Lemma env_rounds_keep (entries : list string) (m : gmap string string)
    (k : string) :
  Forall (fun e => entry_key e <> k) entries ->
  foldl env_round m entries !! k = m !! k.
Proof.
  revert m. induction entries as [|e entries IH]; intros m Hall; [done|].
  inversion Hall as [|? ? He Hrest]; subst. simpl.
  rewrite (IH _ Hrest). by apply set_lookup_ne.
Qed.

(** The last entry written under a key decides the stored value. *)
Lemma env_rounds_last (pre post : list string) (e : string)
    (m : gmap string string) :
  entry_key e <> "__proto__" ->
  Forall (fun e' => entry_key e' <> entry_key e) post ->
  foldl env_round m (pre ++ e :: post)%list !! entry_key e = Some (entry_value e).
Proof.
  intros Hproto Hpost. rewrite foldl_app. simpl.
  rewrite (env_rounds_keep _ _ _ Hpost). by apply set_lookup_eq.
Qed.

Lemma env_round_covered (m : gmap string string) (e : string) :
  Spec.covered e -> env_round m e = Spec.add_entry m e.
Proof.
  intros (k & v & Hs & Hk & Hv).
  unfold env_round, Spec.add_entry. rewrite Hs.
  rewrite (entry_key_of_split e k v Hs), (entry_value_of_split e k v Hs).
  rewrite (unquote_balanced v Hv). unfold Obj.set. by case_decide.
Qed.

Lemma env_rounds_covered (entries : list string) (m : gmap string string) :
  Forall Spec.covered entries ->
  foldl env_round m entries = foldl Spec.add_entry m entries.
Proof.
  revert m. induction entries as [|e entries IH]; intros m Hall; [done|].
  inversion Hall as [|? ? He Hrest]; subst. simpl.
  rewrite (env_round_covered m e He). by apply IH.
Qed.

Lemma scan_env_strings (o : value) (entries : list string) :
  Obj.get o "env" = Ok (VArr (VStr <$> entries)) ->
  scan_env o = Ok (foldl env_round ∅ entries).
Proof.
  intros Hget. unfold scan_env. rewrite Hget. simpl.
  apply for_of_env_strings.
Qed.

Lemma scan_env_falsy (o v : value) :
  Obj.get o "env" = Ok v -> truthy v = false -> scan_env o = Ok ∅.
Proof.
  intros Hget Hv. unfold scan_env. rewrite Hget. simpl.
  unfold or_else. by rewrite Hv.
Qed.

(** ** Reading a decoded object *)

Lemma get_Ok_not_nullish (o v : value) (k : string) :
  Obj.get o k = Ok v -> forall k', exists v', Obj.get o k' = Ok v'.
Proof. destruct o; try done; intros _ k'; simpl; eauto. Qed.

Lemma get_document (props : gmap string value) (k : string) :
  Obj.get (VObj props) k = Ok (default VUndefined (props !! k)).
Proof. reflexivity. Qed.

Lemma get_of_truthy (b : value) (k : string) :
  truthy b = true -> exists v, Obj.get b k = Ok v.
Proof. destruct b; try done; intros _; simpl; eauto. Qed.

Lemma scan_env_reads (o : value) (m : gmap string string) :
  scan_env o = Ok m -> exists v, Obj.get o "env" = Ok v.
Proof.
  unfold scan_env. destruct (Obj.get o "env") as [v|e]; [eauto|done].
Qed.

Lemma scan_branches_total (o v : value) (k : string) :
  Obj.get o k = Ok v -> exists b, scan_branches o = Ok b.
Proof.
  intros Hget. unfold scan_branches.
  destruct (get_Ok_not_nullish o v k Hget "branches") as [raw ->]. simpl.
  destruct (truthy raw) eqn:Hraw; [|eauto].
  destruct (get_of_truthy raw "only" Hraw) as [ov ->].
  destruct (get_of_truthy raw "except" Hraw) as [xv ->]. simpl. eauto.
Qed.

(** ** The descriptor, field by field *)

(** The fields of a returned descriptor, each in terms of the decoded
    object. *)
Lemma normalize_Ok (pn : string) (o : value) (t : TravisCi) :
  normalize pn o = Ok t ->
  scan_env o = Ok (env t) /\
  scan_services o = Ok (services t) /\
  scan_branches o = Ok (branches t) /\
  Obj.get o "language" = Ok (language t) /\
  Obj.get o "addons" = Ok (addons t) /\
  (exists v, Obj.get o "script" = Ok v /\
             scripts t = string_array_or_empty v) /\
  (exists v, Obj.get o "before_install" = Ok v /\
             beforeInstall t = string_array_or_empty v) /\
  (exists v, Obj.get o "after_success" = Ok v /\
             afterSuccess t = string_array_or_empty v) /\
  (exists v, Obj.get o "node_js" = Ok v /\
             nodeJs t = string_array_or_empty v) /\
  canEmulate t = Some (negb (usesUnsupportedFeatures t)) /\
  name t = "travis" /\ projectName t = pn /\
  tags t = ["travis"] /\ referencedEnvironmentVariables t = [].
Proof.
  unfold normalize.
  destruct (scan_env o) as [e|]; [|done].
  destruct (scan_services o) as [s|]; [|done].
  destruct (scan_branches o) as [b|]; [|done].
  destruct (Obj.get o "language") as [l|]; [|done].
  destruct (Obj.get o "script") as [sc|]; [|done].
  destruct (Obj.get o "addons") as [a|]; [|done].
  destruct (Obj.get o "before_install") as [bi|]; [|done].
  destruct (Obj.get o "after_success") as [af|]; [|done].
  destruct (Obj.get o "node_js") as [nj|]; [|done].
  simpl. intros [= <-]. simpl. repeat split; eauto.
Qed.

(** Normalization fails only in the two loops. *)
Lemma normalize_total (pn : string) (o : value)
    (e : gmap string string) (s : gmap string value) :
  scan_env o = Ok e -> scan_services o = Ok s ->
  exists t, normalize pn o = Ok t.
Proof.
  intros He Hs. destruct (scan_env_reads o e He) as [v Hv].
  unfold normalize. rewrite He, Hs. simpl.
  destruct (scan_branches_total o v _ Hv) as [b ->]. simpl.
  destruct (get_Ok_not_nullish o v _ Hv "language") as [? ->].
  destruct (get_Ok_not_nullish o v _ Hv "script") as [? ->].
  destruct (get_Ok_not_nullish o v _ Hv "addons") as [? ->].
  destruct (get_Ok_not_nullish o v _ Hv "before_install") as [? ->].
  destruct (get_Ok_not_nullish o v _ Hv "after_success") as [? ->].
  destruct (get_Ok_not_nullish o v _ Hv "node_js") as [? ->].
  simpl. eauto.
Qed.

(** A failure of normalization is a failure of one of the two loops. *)
Lemma normalize_Throw (pn : string) (o : value) (err : error) :
  normalize pn o = Throw err ->
  scan_env o = Throw err \/
  (exists e, scan_env o = Ok e /\ scan_services o = Throw err).
Proof.
  intros Hn. destruct (scan_env o) as [e|e1] eqn:He.
  - destruct (scan_services o) as [s|e2] eqn:Hs.
    + destruct (normalize_total pn o e s He Hs) as [t Ht]. congruence.
    + right. exists e. split; [done|].
      unfold normalize in Hn. rewrite He, Hs in Hn. simpl in Hn. congruence.
  - left. unfold normalize in Hn. rewrite He in Hn. simpl in Hn. congruence.
Qed.

Lemma coerced_string_array_or_empty (v : value) :
  coerced v (string_array_or_empty v).
Proof.
  unfold coerced, string_array_or_empty. repeat split.
  - by intros l ->.
  - intros Hs Ht. rewrite Ht. by destruct v.
  - by intros ->.
Qed.

(** ** The feasibility flag *)

(** C1, the input on which the claim fails: a document whose [addons] key
    holds [false], a present value, is classified as emulatable. *)
Lemma addons_false_can_emulate :
  Obj.get addons_false_document "addons" = Ok (VBool false) /\
  exists t, normalize "demo" addons_false_document = Ok t /\
            usesUnsupportedFeatures t = false /\
            canEmulate t = Some true /\
            canEmulate t <> Some false.
Proof.
  split; [reflexivity|].
  exists (descriptor_of "demo" addons_false_document).
  split; [reflexivity|]. by repeat split.
Qed.

(** C1, as amended: in every returned descriptor [usesUnsupportedFeatures]
    is true exactly when the [addons] value of the input is truthy, and
    [canEmulate] is its negation; so [canEmulate] is false for a truthy
    [addons] value (an object, an array, a non-empty string, a non-zero
    number, [true]) and true when there is no [addons] key or its value is
    falsy. *)
Theorem canEmulate_iff_addons_falsy (pn : string) (o : value) (t : TravisCi) :
  normalize pn o = Ok t ->
  exists a, Obj.get o "addons" = Ok a /\
            addons t = a /\
            usesUnsupportedFeatures t = truthy a /\
            canEmulate t = Some (negb (truthy a)) /\
            (a = VUndefined -> canEmulate t = Some true).
Proof.
  intros Hn.
  destruct (normalize_Ok pn o t Hn)
    as (_ & _ & _ & _ & Ha & _ & _ & _ & _ & Hc & _).
  exists (addons t). split; [done|]. split; [done|].
  assert (Hu : usesUnsupportedFeatures t = truthy (addons t)).
  { unfold usesUnsupportedFeatures. by destruct (truthy (addons t)). }
  split; [done|]. rewrite Hc, Hu. split; [done|].
  by intros ->.
Qed.

Lemma canEmulate_iff_addons_falsy_witness :
  exists a, Obj.get addons_browser_document "addons" = Ok a /\
            addons (descriptor_of "demo" addons_browser_document) = a /\
            usesUnsupportedFeatures
              (descriptor_of "demo" addons_browser_document) = truthy a /\
            canEmulate (descriptor_of "demo" addons_browser_document)
              = Some (negb (truthy a)) /\
            (a = VUndefined ->
             canEmulate (descriptor_of "demo" addons_browser_document)
               = Some true).
Proof.
  apply (canEmulate_iff_addons_falsy "demo" addons_browser_document).
  reflexivity.
Defined.

(** ** Scalar-or-list fields *)

(** C3, the input on which the claim fails: [script] supplied as the bare
    scalar that is the empty string gives the empty sequence, not the
    sequence holding that scalar. *)
Lemma empty_script_gives_no_scripts :
  Obj.get empty_script_document "script" = Ok (VStr EmptyString) /\
  is_scalar (VStr EmptyString) = true /\
  exists t, normalize "demo" empty_script_document = Ok t /\
            scripts t = [] /\
            scripts t <> [VStr EmptyString].
Proof.
  split; [reflexivity|]. split; [reflexivity|].
  exists (descriptor_of "demo" empty_script_document).
  split; [reflexivity|]. by split.
Qed.

(** C3, as amended: in every returned descriptor each of [scripts],
    [beforeInstall], [afterSuccess] and [nodeJs] is, for the value of
    [script], [before_install], [after_success] and [node_js]
    respectively: the list itself when that value is a list, the
    single-element sequence holding it when it is a truthy scalar, and the
    empty sequence when it is absent or falsy. *)
Theorem scalar_or_list_fields (pn : string) (o : value) (t : TravisCi) :
  normalize pn o = Ok t ->
  exists s b a n,
    Obj.get o "script" = Ok s /\ coerced s (scripts t) /\
    Obj.get o "before_install" = Ok b /\ coerced b (beforeInstall t) /\
    Obj.get o "after_success" = Ok a /\ coerced a (afterSuccess t) /\
    Obj.get o "node_js" = Ok n /\ coerced n (nodeJs t).
Proof.
  intros Hn.
  destruct (normalize_Ok pn o t Hn)
    as (_ & _ & _ & _ & _ & (s & Hs & ->) & (b & Hb & ->) &
        (a & Ha & ->) & (n & Hnj & ->) & _).
  exists s, b, a, n.
  repeat split; try done; by apply coerced_string_array_or_empty.
Qed.

Lemma scalar_or_list_fields_witness :
  exists s b a n,
    Obj.get node_document "script" = Ok s /\
    coerced s (scripts (descriptor_of "demo" node_document)) /\
    Obj.get node_document "before_install" = Ok b /\
    coerced b (beforeInstall (descriptor_of "demo" node_document)) /\
    Obj.get node_document "after_success" = Ok a /\
    coerced a (afterSuccess (descriptor_of "demo" node_document)) /\
    Obj.get node_document "node_js" = Ok n /\
    coerced n (nodeJs (descriptor_of "demo" node_document)).
Proof.
  apply (scalar_or_list_fields "demo" node_document). reflexivity.
Defined.

(** The example document, field by field. *)
Example node_document_fields :
  let t := descriptor_of "demo" node_document in
  scripts t = [VStr "npm run lint"; VStr "npm test"] /\
  beforeInstall t = [VStr "npm install -g npm"] /\
  afterSuccess t = [] /\
  nodeJs t = [VNum (Number false "8")].
Proof. by repeat split. Qed.

(** ** Branch rules *)

(** C5, the input on which the claim fails: a [branches] key that is
    present with the value [false] gives no normalized [branches] at all. *)
Lemma branches_false_gives_none :
  Obj.get branches_false_document "branches" = Ok (VBool false) /\
  exists t, normalize "demo" branches_false_document = Ok t /\
            branches t = None.
Proof.
  split; [reflexivity|].
  exists (descriptor_of "demo" branches_false_document).
  by split.
Qed.

(** C5, as amended: in every returned descriptor, when the [branches] value
    of the input is truthy the normalized [branches] is an object whose
    [only] and [except] are the coerced [only] and [except] sub-fields (the
    empty sequence for an absent or falsy sub-field); when the [branches]
    value is absent or falsy the normalized [branches] is absent. *)
Theorem branches_rules (pn : string) (o : value) (t : TravisCi) :
  normalize pn o = Ok t ->
  exists b, Obj.get o "branches" = Ok b /\
    (truthy b = false -> branches t = None) /\
    (truthy b = true ->
     exists ov xv r,
       Obj.get b "only" = Ok ov /\ Obj.get b "except" = Ok xv /\
       branches t = Some r /\
       coerced ov (only r) /\ coerced xv (except r)).
Proof.
  intros Hn.
  destruct (normalize_Ok pn o t Hn) as (_ & _ & Hb & _).
  unfold scan_branches in Hb.
  destruct (Obj.get o "branches") as [b|] eqn:Hget; [|done].
  exists b. split; [done|]. simpl in Hb.
  destruct (truthy b) eqn:Htb.
  - split; [done|]. intros _.
    destruct (Obj.get b "only") as [ov|]; [|done].
    destruct (Obj.get b "except") as [xv|]; [|done].
    simpl in Hb. injection Hb as <-.
    eexists ov, xv, _. repeat split; try done;
      by apply coerced_string_array_or_empty.
  - split; [|done]. intros _. by injection Hb as <-.
Qed.

Lemma branches_rules_witness :
  exists b, Obj.get branches_master_document "branches" = Ok b /\
    (truthy b = false ->
     branches (descriptor_of "demo" branches_master_document) = None) /\
    (truthy b = true ->
     exists ov xv r,
       Obj.get b "only" = Ok ov /\ Obj.get b "except" = Ok xv /\
       branches (descriptor_of "demo" branches_master_document) = Some r /\
       coerced ov (only r) /\ coerced xv (except r)).
Proof.
  apply (branches_rules "demo" branches_master_document). reflexivity.
Defined.

Example branches_master_document_rules :
  branches (descriptor_of "demo" branches_master_document)
  = Some {| except := [VStr "legacy"; VStr "wip"]; only := [VStr "master"] |}.
Proof. reflexivity. Qed.

(** ** Environment variables *)

(** The specification's stripping on the two shapes it names. *)
Lemma strip_quote_pair_wrapped (mid : string) :
  Spec.strip_quote_pair (JSString.dquote ++ mid ++ JSString.dquote) = mid.
Proof.
  change (JSString.dquote ++ mid ++ JSString.dquote)
    with (String "034" (mid ++ JSString.dquote)).
  unfold Spec.strip_quote_pair. simpl.
  by rewrite strip_trailing_quote_app.
Qed.

Lemma strip_quote_pair_plain (v : string) :
  JSString.startsWith v JSString.dquote = false ->
  Spec.strip_quote_pair v = v.
Proof.
  destruct v as [|c r]; [done|].
  rewrite startsWith_dquote_cons. intros Hc.
  unfold Spec.strip_quote_pair. by rewrite Hc.
Qed.

(** C2: for a decoded object whose [env] is a list of strings of the form
    KEY=VALUE, the scanner builds the mapping the specification describes
    (each entry split at its first equals sign, a value wrapped in a pair of
    double quotes stripped of exactly that pair, the key mapped to the
    result); without an [env] field the mapping is empty; the mapping so
    built is the [env] of the returned descriptor; and the two examples of
    the specification come out as stated.  The entries covered are those
    whose value is not an unbalanced quotation and whose key is not
    [__proto__], which no assignment stores as an own property. *)
Theorem env_normalization :
  (forall (o : value) (entries : list string),
     Obj.get o "env" = Ok (VArr (VStr <$> entries)) ->
     Forall Spec.covered entries ->
     scan_env o = Ok (Spec.env_mapping entries)) /\
  (forall o : value,
     Obj.get o "env" = Ok VUndefined -> scan_env o = Ok ∅) /\
  (forall (pn : string) (o : value) (t : TravisCi),
     normalize pn o = Ok t -> scan_env o = Ok (env t)) /\
  env (descriptor_of "demo" (env_document [db_entry]))
    = {[ "DB" := "postgres" ]} /\
  env (descriptor_of "demo" (env_document [token_entry]))
    = {[ "TOKEN" := "abc123" ]}.
Proof.
  split; [|split; [|split; [|split]]].
  - intros o entries Hget Hall.
    rewrite (scan_env_strings o entries Hget).
    by rewrite (env_rounds_covered entries ∅ Hall).
  - intros o Hget. by apply (scan_env_falsy o VUndefined).
  - intros pn o t Hn. by destruct (normalize_Ok pn o t Hn) as (He & _).
  - reflexivity.
  - reflexivity.
Qed.

Lemma env_normalization_witness :
  scan_env (env_document [db_entry; token_entry])
  = Ok (Spec.env_mapping [db_entry; token_entry]) /\
  scan_env node_document = Ok ∅ /\
  scan_env (env_document [db_entry; token_entry])
  = Ok (env (descriptor_of "demo" (env_document [db_entry; token_entry]))).
Proof.
  destruct env_normalization as (Hlist & Habsent & Hfield & _).
  split; [|split].
  - apply (Hlist (env_document [db_entry; token_entry])).
    + reflexivity.
    + repeat constructor.
      * exists "DB", "postgres". by repeat split.
      * exists "TOKEN", (JSString.dquote ++ "abc123" ++ JSString.dquote).
        by repeat split.
  - apply (Habsent node_document). reflexivity.
  - apply (Hfield "demo"). reflexivity.
Defined.

(** ** Services *)

Lemma for_of_services (elems : list value) (keys : list string)
    (m : gmap string value) :
  Forall2 (fun e k => Obj.to_string e = Ok k) elems keys ->
  for_of services_entry elems m
  = Ok (foldl (fun m n => Obj.set n empty_object m) m keys).
Proof.
  intros Hkeys. revert m.
  induction Hkeys as [|e k elems keys He _ IH]; intros m; [done|].
  simpl. unfold services_entry at 1. rewrite He. simpl. apply IH.
Qed.

Lemma to_string_strings (names : list string) :
  Forall2 (fun e k => Obj.to_string e = Ok k) (VStr <$> names) names.
Proof. induction names as [|n names IH]; by constructor. Qed.

Lemma services_rounds_lookup (names : list string) (m : gmap string value)
    (k : string) :
  "__proto__" ∉ names ->
  foldl (fun m n => Obj.set n empty_object m) m names !! k
  = if decide (k ∈ names) then Some empty_object else m !! k.
Proof.
  revert m. induction names as [|n names IH]; intros m Hproto.
  - simpl. destruct (decide (k ∈ [])) as [Hk|_]; [|done].
    by apply elem_of_nil in Hk.
  - apply not_elem_of_cons in Hproto as [Hn Hproto]. simpl.
    rewrite (IH _ Hproto).
    destruct (decide (k ∈ names)) as [Hin|Hnotin].
    + rewrite decide_True; [done | by apply elem_of_cons; right].
    + destruct (decide (k = n)) as [->|Hkn].
      * rewrite decide_True; [|by apply elem_of_cons; left].
        by apply set_lookup_eq.
      * rewrite decide_False.
        -- by apply set_lookup_ne.
        -- intros [?|?]%elem_of_cons; done.
Qed.

Lemma services_rounds (names : list string) :
  "__proto__" ∉ names ->
  foldl (fun m n => Obj.set n empty_object m) ∅ names
  = gset_to_gmap empty_object (list_to_set names).
Proof.
  intros Hproto. apply map_eq. intros k.
  rewrite (services_rounds_lookup names ∅ k Hproto).
  rewrite lookup_gset_to_gmap, lookup_empty.
  destruct (decide (k ∈ names)) as [Hin|Hnotin].
  - rewrite option_guard_True; [done | by apply elem_of_list_to_set].
  - rewrite option_guard_False; [done | by rewrite elem_of_list_to_set].
Qed.

(** C4: for a decoded object whose [services] value is a single string the
    scanner builds the one-entry mapping from that string to an empty
    object; for a sequence it builds the mapping with one empty-object entry
    per element, under the element itself when it is a string and under its
    string form otherwise; without a [services] field the mapping is empty;
    the mapping so built is the [services] of the returned descriptor; and
    the two examples of the specification come out as stated.  The names
    covered are those other than [__proto__], which no assignment stores as
    an own property. *)
Theorem services_normalization :
  (forall (o : value) (s : string),
     Obj.get o "services" = Ok (VStr s) -> s <> "__proto__" ->
     scan_services o = Ok {[ s := empty_object ]}) /\
  (forall (o : value) (names : list string),
     Obj.get o "services" = Ok (VArr (VStr <$> names)) ->
     "__proto__" ∉ names ->
     scan_services o = Ok (gset_to_gmap empty_object (list_to_set names))) /\
  (forall (o : value) (elems : list value) (keys : list string),
     Obj.get o "services" = Ok (VArr elems) ->
     Forall2 (fun e k => Obj.to_string e = Ok k) elems keys ->
     "__proto__" ∉ keys ->
     scan_services o = Ok (gset_to_gmap empty_object (list_to_set keys))) /\
  (forall o : value,
     Obj.get o "services" = Ok VUndefined -> scan_services o = Ok ∅) /\
  (forall (pn : string) (o : value) (t : TravisCi),
     normalize pn o = Ok t -> scan_services o = Ok (services t)) /\
  services (descriptor_of "demo" (services_document (VStr "redis")))
    = {[ "redis" := empty_object ]} /\
  services (descriptor_of "demo"
              (services_document (VArr [VStr "redis"; VStr "postgres"])))
    = {[ "redis" := empty_object; "postgres" := empty_object ]}.
Proof.
  assert (Hseq : forall (o : value) (elems : list value) (keys : list string),
     Obj.get o "services" = Ok (VArr elems) ->
     Forall2 (fun e k => Obj.to_string e = Ok k) elems keys ->
     "__proto__" ∉ keys ->
     scan_services o = Ok (gset_to_gmap empty_object (list_to_set keys))).
  { intros o elems keys Hget Hkeys Hproto.
    unfold scan_services. rewrite Hget. simpl.
    rewrite (for_of_services elems keys ∅ Hkeys).
    by rewrite services_rounds. }
  split; [|split; [|split; [|split; [|split; [|split]]]]].
  - intros o s Hget Hs. unfold scan_services. rewrite Hget. simpl.
    unfold Obj.set. by rewrite decide_False.
  - intros o names Hget Hproto.
    apply (Hseq o (VStr <$> names) names Hget); [|done].
    apply to_string_strings.
  - exact Hseq.
  - intros o Hget. unfold scan_services. by rewrite Hget.
  - intros pn o t Hn. by destruct (normalize_Ok pn o t Hn) as (_ & Hs & _).
  - reflexivity.
  - apply map_eq. intros k. vm_compute. reflexivity.
Qed.

Lemma services_normalization_witness :
  scan_services (services_document (VStr "redis"))
  = Ok {[ "redis" := empty_object ]} /\
  scan_services (services_document (VArr (VStr <$> ["redis"; "postgres"])))
  = Ok (gset_to_gmap empty_object (list_to_set ["redis"; "postgres"])) /\
  scan_services (services_document (VArr [VStr "redis"; VNum (Number false "6379")]))
  = Ok (gset_to_gmap empty_object (list_to_set ["redis"; "6379"])) /\
  scan_services node_document = Ok ∅ /\
  scan_services (services_document (VStr "redis"))
  = Ok (services (descriptor_of "demo" (services_document (VStr "redis")))).
Proof.
  destruct services_normalization
    as (Hone & Hlist & Hseq & Habsent & Hfield & _).
  assert (Hclean : forall a b : string,
            a <> "__proto__" -> b <> "__proto__" -> "__proto__" ∉ [a; b]).
  { intros a b Ha Hb Hin.
    apply elem_of_cons in Hin as [Hin|Hin]; [done|].
    apply elem_of_cons in Hin as [Hin|Hin]; [done|].
    by apply elem_of_nil in Hin. }
  split; [|split; [|split; [|split]]].
  - apply (Hone (services_document (VStr "redis"))); [reflexivity | done].
  - apply (Hlist (services_document (VArr (VStr <$> ["redis"; "postgres"])))).
    + reflexivity.
    + by apply Hclean.
  - apply (Hseq (services_document
                   (VArr [VStr "redis"; VNum (Number false "6379")]))
             [VStr "redis"; VNum (Number false "6379")]).
    + reflexivity.
    + by repeat constructor.
    + by apply Hclean.
  - apply (Habsent node_document). reflexivity.
  - apply (Hfield "demo"). reflexivity.
Defined.

(** ** Unbalanced quotes and entries without an equals sign *)

(** A value that starts with a double quote and does not end with one has
    at least two characters, the last of them not a double quote. *)
Lemma unbalanced_shape (v : string) :
  JSString.startsWith v JSString.dquote = true ->
  JSString.endsWith v JSString.dquote = false ->
  exists mid c, v = JSString.dquote ++ mid ++ String c EmptyString /\
                c <> "034"%char.
Proof.
  intros Hs He. destruct (startsWith_dquote v Hs) as [r ->].
  assert (Hlast : forall s : string, s <> EmptyString ->
            exists init c, s = init ++ String c EmptyString).
  { induction s as [|x s IH]; [done|]. intros _.
    destruct s as [|y s].
    - by exists EmptyString, x.
    - destruct IH as (init & c & Hi); [done|].
      exists (String x init), c. rewrite Hi. reflexivity. }
  destruct r as [|x r]; [done|].
  destruct (Hlast (String x r)) as (init & c & Hi); [done|].
  exists init, c. rewrite Hi. split; [done|].
  intros ->. rewrite Hi in He.
  assert (Hends : JSString.endsWith
            (JSString.dquote ++ init ++ JSString.dquote) JSString.dquote = true).
  { clear. unfold JSString.endsWith.
    rewrite <- append_assoc, length_append.
    change (String.length JSString.dquote) with 1%nat.
    replace (Z.of_nat (String.length (JSString.dquote ++ init) + 1)
             - Z.of_nat 1)
      with (Z.of_nat (String.length (JSString.dquote ++ init))) by lia.
    destruct (Z.ltb_spec (Z.of_nat (String.length (JSString.dquote ++ init))) 0)
      as [Hneg|_]; [lia|].
    rewrite Nat2Z.id, substring_skip. reflexivity. }
  unfold JSString.dquote in Hends, He. congruence.
Qed.

(** C8: an env entry KEY=VALUE whose VALUE begins with a double quote and
    does not end with one is stored, under KEY, as VALUE without its first
    and its last character.  The entry is read through the whole loop: the
    stored value is the one found in the scanned mapping when no later entry
    writes the same key.  KEY is any key other than [__proto__], which no
    assignment stores as an own property. *)
Theorem unbalanced_quote_loses_both_ends
    (o : value) (pre post : list string) (e k v : string) :
  Obj.get o "env" = Ok (VArr (VStr <$> (pre ++ e :: post)%list)) ->
  Spec.split_at_first_eq e = Some (k, v) ->
  k <> "__proto__" ->
  JSString.startsWith v JSString.dquote = true ->
  JSString.endsWith v JSString.dquote = false ->
  Forall (fun e' => entry_key e' <> k) post ->
  exists (m : gmap string string) (mid : string) (c : ascii),
    scan_env o = Ok m /\
    v = JSString.dquote ++ mid ++ String c EmptyString /\
    m !! k = Some mid.
Proof.
  intros Hget Hsplit Hk Hs He Hpost.
  destruct (unbalanced_shape v Hs He) as (mid & c & Hv & _).
  exists (foldl env_round ∅ (pre ++ e :: post)%list), mid, c.
  split; [by apply scan_env_strings|]. split; [done|].
  pose proof (entry_key_of_split e k v Hsplit) as Hkey.
  pose proof (entry_value_of_split e k v Hsplit) as Hval.
  rewrite <- Hkey in Hk, Hpost |- *.
  rewrite (env_rounds_last pre post e ∅ Hk Hpost).
  by rewrite Hval, Hv, unquote_ends.
Qed.

Lemma unbalanced_quote_loses_both_ends_witness :
  exists (m : gmap string string) (mid : string) (c : ascii),
    scan_env (env_document [db_entry; unbalanced_entry; token_entry])
      = Ok m /\
    JSString.dquote ++ "abc" = JSString.dquote ++ mid ++ String c EmptyString /\
    m !! "X" = Some mid.
Proof.
  apply (unbalanced_quote_loses_both_ends
           (env_document [db_entry; unbalanced_entry; token_entry])
           [db_entry] [token_entry] unbalanced_entry "X"
           (JSString.dquote ++ "abc")).
  - reflexivity.
  - reflexivity.
  - done.
  - reflexivity.
  - reflexivity.
  - repeat constructor. vm_compute. done.
Defined.

(** The example of the claim: the stored value is [ab]. *)
Example unbalanced_entry_value :
  env (descriptor_of "demo" (env_document [unbalanced_entry]))
  = {[ "X" := "ab" ]}.
Proof. reflexivity. Qed.

(** C9, the input on which the claim fails: the entry has no equals sign
    and a double quote as its second character; the value stored under the
    empty key is not the entry without its first character, because that
    remainder goes through the quote stripping as well. *)
Lemma quoted_bare_entry_is_stripped :
  JSString.indexOf quoted_bare_entry "=" = -1 /\
  string_tail quoted_bare_entry
    = JSString.dquote ++ "abc" ++ JSString.dquote /\
  exists t, normalize "demo" (env_document [quoted_bare_entry]) = Ok t /\
            env t !! EmptyString = Some "abc" /\
            env t !! EmptyString <> Some (string_tail quoted_bare_entry).
Proof.
  split; [reflexivity|]. split; [reflexivity|].
  exists (descriptor_of "demo" (env_document [quoted_bare_entry])).
  split; [reflexivity|]. split; [reflexivity|].
  vm_compute. discriminate.
Qed.

(** C9, as amended: an env entry that is a string with no equals sign
    neither fails nor is skipped: the scan succeeds and stores, under the
    empty key, the entry without its first character after the quote
    stripping every value goes through; when that remainder does not start
    with a double quote the stored value is the remainder itself.  The
    stored value is the one found in the scanned mapping when no later entry
    writes the empty key. *)
Theorem entry_without_equals_sign
    (o : value) (pre post : list string) (e : string) :
  Obj.get o "env" = Ok (VArr (VStr <$> (pre ++ e :: post)%list)) ->
  JSString.indexOf e "=" = -1 ->
  Forall (fun e' => entry_key e' <> EmptyString) post ->
  exists m : gmap string string,
    scan_env o = Ok m /\
    m !! EmptyString = Some (unquote (string_tail e)) /\
    (JSString.startsWith (string_tail e) JSString.dquote = false ->
     m !! EmptyString = Some (string_tail e)).
Proof.
  intros Hget Hi Hpost.
  exists (foldl env_round ∅ (pre ++ e :: post)%list).
  split; [by apply scan_env_strings|].
  pose proof (entry_key_no_eq e Hi) as Hkey.
  pose proof (entry_value_no_eq e Hi) as Hval.
  assert (Hlook : foldl env_round ∅ (pre ++ e :: post)%list !! EmptyString
                  = Some (unquote (string_tail e))).
  { rewrite <- Hkey, <- Hval. apply env_rounds_last.
    - by rewrite Hkey.
    - by rewrite Hkey. }
  split; [done|]. intros Hplain. by rewrite Hlook, unquote_plain.
Qed.

Lemma entry_without_equals_sign_witness :
  exists m : gmap string string,
    scan_env (env_document [db_entry; bare_entry; token_entry]) = Ok m /\
    m !! EmptyString = Some (unquote (string_tail bare_entry)) /\
    (JSString.startsWith (string_tail bare_entry) JSString.dquote = false ->
     m !! EmptyString = Some (string_tail bare_entry)).
Proof.
  apply (entry_without_equals_sign
           (env_document [db_entry; bare_entry; token_entry])
           [db_entry] [token_entry] bare_entry).
  - reflexivity.
  - reflexivity.
  - repeat constructor. vm_compute. done.
Defined.

(** The example of the claim: [FOO] is stored as [OO] under the empty key. *)
Example bare_entry_value :
  env (descriptor_of "demo" (env_document [bare_entry]))
  = {[ EmptyString := "OO" ]}.
Proof. reflexivity. Qed.

(** ** The decoder *)

Section Decoder.
Context `{Parsers}.

Lemma tryAsYamlThenJson_unfold (content : string) (tr : list event) :
  tryAsYamlThenJson content tr
  = match yaml_parse content with
    | Ok v => (Ok v, (tr ++ [YamlParse content])%list)
    | Throw _ =>
        (JSON_parse content, (tr ++ [YamlParse content; JsonParse content])%list)
    end.
Proof.
  unfold tryAsYamlThenJson, try_catch, bind, emit, lift.
  destruct (yaml_parse content); [done|].
  by rewrite <- app_assoc.
Qed.

(** The decoder calls the parsers and nothing else: it logs nothing. *)
Lemma tryAsYamlThenJson_silent (content : string) (tr tr1 : list event)
    (r : result value) :
  tryAsYamlThenJson content tr = (r, tr1) -> warnings tr1 = warnings tr.
Proof.
  rewrite tryAsYamlThenJson_unfold. unfold warnings.
  destruct (yaml_parse content); intros [= _ <-];
    rewrite filter_app; simpl; by rewrite app_nil_r.
Qed.

End Decoder.

(** C6: the decoder first calls the YAML parser on the text; when that call
    returns, its result is the decoder's and the JSON parser is not called;
    when it throws, whatever it threw, the JSON parser is called on the same
    text and its outcome, result or failure, is the decoder's.  So the JSON
    parser is called exactly when the YAML parser threw, and a text that is
    valid JSON and invalid YAML decodes to what the JSON parser yields. *)
Theorem yaml_then_json `{Parsers} (content : string) (tr : list event) :
  (forall v, yaml_parse content = Ok v ->
     tryAsYamlThenJson content tr
     = (Ok v, (tr ++ [YamlParse content])%list)) /\
  (forall e, yaml_parse content = Throw e ->
     tryAsYamlThenJson content tr
     = (JSON_parse content,
        (tr ++ [YamlParse content; JsonParse content])%list)) /\
  (exists new : list event,
     snd (tryAsYamlThenJson content tr) = (tr ++ new)%list /\
     head new = Some (YamlParse content) /\
     (JsonParse content ∈ new <-> exists e, yaml_parse content = Throw e)).
Proof.
  rewrite tryAsYamlThenJson_unfold.
  split; [|split].
  - by intros v ->.
  - by intros e ->.
  - destruct (yaml_parse content) as [v|e].
    + exists [YamlParse content]. split; [done|]. split; [done|]. split.
      * intros Hin. apply elem_of_cons in Hin as [Hin|Hin]; [done|].
        by apply elem_of_nil in Hin.
      * by intros [e He].
    + exists [YamlParse content; JsonParse content].
      split; [done|]. split; [done|]. split; [by eauto|].
      intros _. apply elem_of_cons. right. apply elem_of_cons. by left.
Qed.

Lemma yaml_then_json_witness :
  @tryAsYamlThenJson sample_parsers "language: ruby" []
  = (Ok (document [("language", VStr "ruby")]), [YamlParse "language: ruby"]) /\
  @tryAsYamlThenJson sample_parsers "[[[[1]]]]" []
  = (Ok nested_brackets, [YamlParse "[[[[1]]]]"; JsonParse "[[[[1]]]]"]) /\
  @tryAsYamlThenJson sample_parsers "language: [" []
  = (@JSON_parse sample_parsers "language: [",
     [YamlParse "language: ["; JsonParse "language: ["]).
Proof.
  split; [|split].
  - apply (proj1 (@yaml_then_json sample_parsers "language: ruby" [])).
    reflexivity.
  - apply (proj1 (proj2 (@yaml_then_json sample_parsers "[[[[1]]]]" []))
             (Error "ParseException" "Malformed inline YAML string")).
    reflexivity.
  - apply (proj1 (proj2 (@yaml_then_json sample_parsers "language: [" []))
             (Error "ParseException" "Malformed inline YAML string")).
    reflexivity.
Defined.

(** ** The scanner's boundary *)

(** Enter the scanner of a project whose descriptor lookup is known. *)
Ltac enter_scanner Hfile :=
  unfold travisScanner; rewrite Hfile;
  try unfold try_catch, bind, lift at 1.

Section Boundary.
Context `{Parsers}.

(** The scanner when the file is there and its text was read. *)
Lemma travisScanner_unfold (p : Project.t) (f : File) (content : string)
    (tr : list event) :
  Project.getFile p ".travis.yml" = Some f ->
  getContent f = Ok content ->
  travisScanner p tr
  = match tryAsYamlThenJson content tr with
    | (Ok o, tr1) =>
        match normalize (Project.name p) o with
        | Ok t => (Ok (Some t), tr1)
        | Throw e => (Ok None, (tr1 ++ [diagnostic e])%list)
        end
    | (Throw e, tr1) => (Ok None, (tr1 ++ [diagnostic e])%list)
    end.
Proof.
  intros Hf Hc. enter_scanner Hf. rewrite Hc.
  destruct (tryAsYamlThenJson content tr) as [[o|e] tr1]; [|done].
  unfold lift. by destruct (normalize (Project.name p) o).
Qed.

Lemma warnings_snoc_diagnostic (tr : list event) (e : error) :
  warnings (tr ++ [diagnostic e])%list = (warnings tr ++ [diagnostic e])%list.
Proof. unfold warnings. by rewrite filter_app. Qed.

End Boundary.

(** C7: when the descriptor file is absent the scanner returns [undefined]
    and leaves the trace as it was, so nothing is logged; when decoding
    fails (both parsers throw), when normalization throws, or when reading
    the text fails, the scanner returns [undefined] and logs one diagnostic,
    which carries the message of the failure, and the warnings of the run
    are that diagnostic alone; whatever the project, the scanner returns
    and throws nothing to its caller. *)
Theorem scan_failures_are_contained `{Parsers} (p : Project.t)
    (tr : list event) :
  (Project.getFile p ".travis.yml" = None ->
     travisScanner p tr = (Ok None, tr)) /\
  (forall f content tr1 e,
     Project.getFile p ".travis.yml" = Some f ->
     getContent f = Ok content ->
     tryAsYamlThenJson content tr = (Throw e, tr1) ->
     travisScanner p tr = (Ok None, (tr1 ++ [diagnostic e])%list) /\
     warnings (snd (travisScanner p tr))
     = (warnings tr ++ [diagnostic e])%list) /\
  (forall f content tr1 o e,
     Project.getFile p ".travis.yml" = Some f ->
     getContent f = Ok content ->
     tryAsYamlThenJson content tr = (Ok o, tr1) ->
     normalize (Project.name p) o = Throw e ->
     travisScanner p tr = (Ok None, (tr1 ++ [diagnostic e])%list) /\
     warnings (snd (travisScanner p tr))
     = (warnings tr ++ [diagnostic e])%list) /\
  (forall f e,
     Project.getFile p ".travis.yml" = Some f ->
     getContent f = Throw e ->
     travisScanner p tr = (Ok None, (tr ++ [diagnostic e])%list)) /\
  (exists r tr', travisScanner p tr = (Ok r, tr')).
Proof.
  split; [|split; [|split; [|split]]].
  - intros Hf. by enter_scanner Hf.
  - intros f content tr1 e Hf Hc Hd.
    rewrite (travisScanner_unfold p f content tr Hf Hc), Hd. split; [done|].
    simpl. rewrite warnings_snoc_diagnostic.
    by rewrite (tryAsYamlThenJson_silent content tr tr1 _ Hd).
  - intros f content tr1 o e Hf Hc Hd Hn.
    rewrite (travisScanner_unfold p f content tr Hf Hc), Hd, Hn.
    split; [done|]. simpl. rewrite warnings_snoc_diagnostic.
    by rewrite (tryAsYamlThenJson_silent content tr tr1 _ Hd).
  - intros f e Hf Hc. enter_scanner Hf. by rewrite Hc.
  - destruct (Project.getFile p ".travis.yml") as [f|] eqn:Hf.
    + destruct (getContent f) as [content|e] eqn:Hc.
      * rewrite (travisScanner_unfold p f content tr Hf Hc).
        destruct (tryAsYamlThenJson content tr) as [[o|e] tr1]; [|by eauto].
        destruct (normalize (Project.name p) o); by eauto.
      * enter_scanner Hf. rewrite Hc. by eauto.
    + enter_scanner Hf. by eauto.
Qed.

Lemma scan_failures_are_contained_witness :
  @travisScanner sample_parsers (project_without "demo") [] = (Ok None, []) /\
  (@travisScanner sample_parsers (project_with "demo" malformed_text) []
   = (Ok None,
      [YamlParse malformed_text; JsonParse malformed_text;
       LoggerWarn "Cannot parse YAML file: %s"
         ["Unexpected token in JSON at position 0"]]) /\
   warnings
     (snd (@travisScanner sample_parsers
             (project_with "demo" malformed_text) []))
   = [LoggerWarn "Cannot parse YAML file: %s"
        ["Unexpected token in JSON at position 0"]]) /\
  (@travisScanner sample_parsers (project_with "demo" env_global_text) []
   = (Ok None,
      [YamlParse env_global_text;
       LoggerWarn "Cannot parse YAML file: %s" ["object is not iterable"]]) /\
   warnings
     (snd (@travisScanner sample_parsers
             (project_with "demo" env_global_text) []))
   = [LoggerWarn "Cannot parse YAML file: %s" ["object is not iterable"]]) /\
  @travisScanner sample_parsers (project_unreadable "demo") []
  = (Ok None,
     [LoggerWarn "Cannot parse YAML file: %s" ["EACCES: permission denied"]]).
Proof.
  split; [|split; [|split]].
  - apply (proj1 (@scan_failures_are_contained sample_parsers
                    (project_without "demo") [])).
    reflexivity.
  - destruct (@scan_failures_are_contained sample_parsers
                (project_with "demo" malformed_text) [])
      as (_ & Hdecode & _).
    apply (Hdecode {| getContent := Ok malformed_text |} malformed_text
             [YamlParse malformed_text; JsonParse malformed_text]
             (Error "SyntaxError" "Unexpected token in JSON at position 0"));
      reflexivity.
  - destruct (@scan_failures_are_contained sample_parsers
                (project_with "demo" env_global_text) [])
      as (_ & _ & Hnormalize & _).
    apply (Hnormalize {| getContent := Ok env_global_text |} env_global_text
             [YamlParse env_global_text] env_global_document
             (TypeError "object is not iterable"));
      reflexivity.
  - destruct (@scan_failures_are_contained sample_parsers
                (project_unreadable "demo") [])
      as (_ & _ & _ & Hread & _).
    apply (Hread {| getContent := Throw read_error |} read_error);
      reflexivity.
Defined.

(** A descriptor is returned, and nothing logged, when both steps succeed. *)
Example scan_of_ruby_project :
  @travisScanner sample_parsers (project_with "demo" "language: ruby") []
  = (Ok (Some (descriptor_of "demo" (document [("language", VStr "ruby")]))),
     [YamlParse "language: ruby"]).
Proof. reflexivity. Qed.

(** ** An env that cannot be iterated *)

Lemma scan_env_not_iterable (o raw : value) :
  Obj.get o "env" = Ok raw -> truthy raw = true -> iterable raw = false ->
  exists e, scan_env o = Throw e.
Proof.
  intros Hget Ht Hi. unfold scan_env. rewrite Hget. simpl.
  unfold or_else. rewrite Ht.
  destruct raw; try done; simpl; eauto.
Qed.

(** C10: when the decoded object has an [env] value that is truthy and not
    iterable (a mapping, a non-zero number, [true]), normalization throws
    and the scanner returns [undefined] for the project, with its one
    diagnostic, rather than a descriptor. *)
Theorem non_iterable_env_discards_descriptor `{Parsers} (p : Project.t)
    (tr tr1 : list event) (f : File) (content : string) (o raw : value) :
  Project.getFile p ".travis.yml" = Some f ->
  getContent f = Ok content ->
  tryAsYamlThenJson content tr = (Ok o, tr1) ->
  Obj.get o "env" = Ok raw ->
  truthy raw = true ->
  iterable raw = false ->
  exists e,
    normalize (Project.name p) o = Throw e /\
    travisScanner p tr = (Ok None, (tr1 ++ [diagnostic e])%list).
Proof.
  intros Hf Hc Hd Hget Ht Hi.
  destruct (scan_env_not_iterable o raw Hget Ht Hi) as [e He].
  exists e.
  assert (Hn : normalize (Project.name p) o = Throw e).
  { unfold normalize. by rewrite He. }
  split; [done|].
  by rewrite (travisScanner_unfold p f content tr Hf Hc), Hd, Hn.
Qed.

Lemma non_iterable_env_discards_descriptor_witness :
  exists e,
    normalize "demo" env_global_document = Throw e /\
    @travisScanner sample_parsers (project_with "demo" env_global_text) []
    = (Ok None, [YamlParse env_global_text; diagnostic e]).
Proof.
  apply (@non_iterable_env_discards_descriptor sample_parsers
           (project_with "demo" env_global_text) [] [YamlParse env_global_text]
           {| getContent := Ok env_global_text |} env_global_text
           env_global_document
           (document [("global", VArr [VStr "A=1"])]));
    reflexivity.
Defined.

(** * Further properties of the scanner *)

(** ** Keys and the equals sign *)

Lemma indexOf_none_iff (e : string) :
  JSString.indexOf e "=" = -1 <-> Spec.split_at_first_eq e = None.
Proof.
  pose proof (index_split e) as Hi. unfold JSString.indexOf.
  destruct (Spec.split_at_first_eq e) as [[k v]|].
  - destruct Hi as [-> _]. split; [lia | done].
  - by rewrite Hi.
Qed.

Lemma split_key_has_no_eq (e k v : string) :
  Spec.split_at_first_eq e = Some (k, v) -> Spec.split_at_first_eq k = None.
Proof.
  revert k v. induction e as [|c e IH]; intros k v; [done|].
  cbn [Spec.split_at_first_eq].
  destruct (Ascii.eqb c "="%char) eqn:Hc; [by intros [= <- <-]|].
  destruct (Spec.split_at_first_eq e) as [[k' v']|]; [|done].
  intros [= <- <-]. cbn [Spec.split_at_first_eq]. rewrite Hc.
  by rewrite (IH k' v' eq_refl).
Qed.

Lemma split_of_joined (k v : string) :
  Spec.split_at_first_eq k = None ->
  Spec.split_at_first_eq (k ++ "=" ++ v) = Some (k, v).
Proof.
  induction k as [|c k IH]; [done|].
  change (String c k ++ "=" ++ v) with (String c (k ++ "=" ++ v)).
  cbn [Spec.split_at_first_eq].
  destruct (Ascii.eqb c "="%char); [done|].
  destruct (Spec.split_at_first_eq k) as [[k' v']|]; [done|].
  intros _. by rewrite IH.
Qed.

Lemma entry_key_has_no_eq (e : string) :
  JSString.indexOf (entry_key e) "=" = -1.
Proof.
  destruct (Spec.split_at_first_eq e) as [[k v]|] eqn:Hs.
  - rewrite (entry_key_of_split e k v Hs). apply indexOf_none_iff.
    by apply (split_key_has_no_eq e k v).
  - by rewrite entry_key_no_eq; [|apply indexOf_none_iff].
Qed.

Lemma entry_of_joined (k v : string) :
  JSString.indexOf k "=" = -1 ->
  entry_key (k ++ "=" ++ v) = k /\ entry_value (k ++ "=" ++ v) = unquote v.
Proof.
  intros Hk. apply indexOf_none_iff in Hk.
  pose proof (split_of_joined k v Hk) as Hs. split.
  - by apply (entry_key_of_split _ k v).
  - by apply (entry_value_of_split _ k v).
Qed.

(** ** Which env values scan *)

Lemma for_of_env_entry_Ok (entries : list value) (m m' : gmap string string) :
  for_of env_entry entries m = Ok m' ->
  exists l : list string, entries = VStr <$> l /\ m' = foldl env_round m l.
Proof.
  revert m. induction entries as [|e entries IH]; intros m.
  - intros [= <-]. by exists [].
  - simpl. destruct e as [| | | |s| |]; try done. simpl.
    intros Hrest. destruct (IH _ Hrest) as (l & -> & ->).
    by exists (s :: l).
Qed.

Lemma iterate_Ok_strings (raw : value) (entries : list value) :
  Obj.iterate raw = Ok entries ->
  raw = VArr entries \/ exists s, raw = VStr s /\ entries = VStr <$> JSString.chars s.
Proof.
  destruct raw; try done; simpl; intros [= <-]; eauto.
Qed.

(** A scan of [env] that succeeds ran the loop over strings only. *)
Lemma scan_env_Ok_inv (o : value) (m : gmap string string) :
  scan_env o = Ok m -> exists l : list string, m = foldl env_round ∅ l.
Proof.
  unfold scan_env. destruct (Obj.get o "env") as [raw|]; [|done]. simpl.
  destruct (Obj.iterate (or_else raw (VArr []))) as [entries|]; [|done]. simpl.
  intros Hloop. destruct (for_of_env_entry_Ok _ _ _ Hloop) as (l & _ & ->).
  by exists l.
Qed.

Lemma env_rounds_key_origin (l : list string) (m : gmap string string)
    (k : string) :
  is_Some (foldl env_round m l !! k) ->
  is_Some (m !! k) \/
  (k <> "__proto__" /\ exists e, e ∈ l /\ entry_key e = k).
Proof.
  revert m. induction l as [|e l IH]; intros m; [by left|].
  simpl. intros Hk. destruct (IH _ Hk) as [Hm|(Hp & e' & He' & Hkey)].
  - unfold env_round, Obj.set in Hm. case_decide as Hproto; [by left|].
    destruct (decide (entry_key e = k)) as [<-|Hne].
    + right. split; [done|]. exists e. split; [by apply elem_of_cons; left|done].
    + left. by rewrite lookup_insert_ne in Hm.
  - right. split; [done|]. exists e'. split; [by apply elem_of_cons; right|done].
Qed.

Lemma for_of_env_entry_strings_iff (entries : list value)
    (m : gmap string string) :
  (exists m', for_of env_entry entries m = Ok m') <->
  Forall (fun e => is_string e = true) entries.
Proof.
  split.
  - intros [m' Hloop].
    destruct (for_of_env_entry_Ok _ _ _ Hloop) as (l & -> & _).
    apply Forall_fmap. by apply Forall_true.
  - intros Hall. revert m.
    induction Hall as [|e entries He _ IH]; intros m; [by eexists|].
    destruct e; try done. simpl. apply IH.
Qed.

(** X1: an [env] list scans exactly when every entry is a string; one
    entry of another kind (a number, a mapping, a nested list, [null])
    makes the whole normalization throw, whatever the other fields hold. *)
Theorem env_list_scans_iff_all_strings (pn : string) (o : value)
    (entries : list value) :
  Obj.get o "env" = Ok (VArr entries) ->
  ((exists m, scan_env o = Ok m) <->
   Forall (fun e => is_string e = true) entries) /\
  (Exists (fun e => is_string e = false) entries ->
   exists err, normalize pn o = Throw err).
Proof.
  intros Hget.
  assert (Hscan : scan_env o = for_of env_entry entries ∅).
  { unfold scan_env. by rewrite Hget. }
  assert (Hiff : (exists m, scan_env o = Ok m) <->
                 Forall (fun e => is_string e = true) entries).
  { rewrite Hscan. apply for_of_env_entry_strings_iff. }
  split; [done|]. intros Hbad.
  destruct (scan_env o) as [m|err] eqn:Hres.
  - exfalso. assert (Hall : Forall (fun e => is_string e = true) entries)
      by (apply Hiff; eauto).
    apply Exists_exists in Hbad as (e & Hin & He).
    rewrite Forall_forall in Hall. specialize (Hall e Hin). congruence.
  - exists err. unfold normalize. by rewrite Hres.
Qed.

Lemma env_list_scans_iff_all_strings_witness :
  ~ (exists m, scan_env env_mixed_document = Ok m) /\
  exists err, normalize "demo" env_mixed_document = Throw err.
Proof.
  destruct (env_list_scans_iff_all_strings "demo" env_mixed_document
              [VStr "DB=postgres"; document [("secure", VStr "c2VjcmV0")]]
              eq_refl) as [Hiff Hthrow].
  split.
  - intros Hm. apply Hiff in Hm.
    inversion Hm as [|? ? _ Hrest]; subst.
    inversion Hrest as [|? ? Hbad _]; subst. discriminate Hbad.
  - apply Hthrow. right. left. reflexivity.
Defined.

(** ** An env given as one string *)





(** ** Values as written and as stored *)

(** X3: when several entries of an [env] list write the same key, the last
    of them decides the stored value. *)
Theorem last_env_entry_wins (o : value) (pre post : list string)
    (e : string) :
  Obj.get o "env" = Ok (VArr (VStr <$> (pre ++ e :: post)%list)) ->
  entry_key e <> "__proto__" ->
  Forall (fun e' => entry_key e' <> entry_key e) post ->
  exists m : gmap string string,
    scan_env o = Ok m /\ m !! entry_key e = Some (entry_value e).
Proof.
  intros Hget Hproto Hpost.
  exists (foldl env_round ∅ (pre ++ e :: post)%list).
  split; [by apply scan_env_strings|].
  by apply env_rounds_last.
Qed.

Lemma last_env_entry_wins_witness :
  exists m : gmap string string,
    scan_env (env_document [db_entry; token_entry; db_again_entry]) = Ok m /\
    m !! entry_key db_again_entry = Some (entry_value db_again_entry).
Proof.
  apply (last_env_entry_wins
           (env_document [db_entry; token_entry; db_again_entry])
           [db_entry; token_entry] [] db_again_entry).
  - reflexivity.
  - vm_compute. done.
  - constructor.
Defined.

(** X4: a value written between two double quotes is stored exactly as it
    stands between them, whatever it holds (equals signs, spaces, more
    double quotes): the key, written without an equals sign, maps to it. *)
Theorem quoted_value_round_trip (o : value) (pre post : list string)
    (k v : string) :
  Obj.get o "env"
  = Ok (VArr (VStr <$> (pre ++ key_value k (quoted v) :: post)%list)) ->
  JSString.indexOf k "=" = -1 ->
  k <> "__proto__" ->
  Forall (fun e' => entry_key e' <> k) post ->
  exists m : gmap string string, scan_env o = Ok m /\ m !! k = Some v.
Proof.
  intros Hget Hk Hproto Hpost.
  destruct (entry_of_joined k (quoted v) Hk) as [Hkey Hval].
  fold (key_value k (quoted v)) in Hkey, Hval.
  exists (foldl env_round ∅ (pre ++ key_value k (quoted v) :: post)%list).
  split; [by apply scan_env_strings|].
  pose proof (env_rounds_last pre post (key_value k (quoted v)) ∅) as Hlast.
  rewrite Hkey, Hval in Hlast. rewrite (Hlast Hproto Hpost).
  f_equal. apply (unquote_ends v "034").
Qed.

Lemma quoted_value_round_trip_witness :
  exists m : gmap string string,
    scan_env (env_document [db_entry; quoted_url_entry]) = Ok m /\
    m !! "URL" = Some "http://host/?a=b".
Proof.
  apply (quoted_value_round_trip
           (env_document [db_entry; quoted_url_entry])
           [db_entry] [] "URL" "http://host/?a=b").
  - reflexivity.
  - reflexivity.
  - done.
  - constructor.
Defined.

(** X5: a value that does not start with a double quote is stored
    verbatim: equals signs after the first belong to the value, and single
    quotes, spaces and inner or trailing double quotes are kept. *)
Theorem plain_value_round_trip (o : value) (pre post : list string)
    (k v : string) :
  Obj.get o "env" = Ok (VArr (VStr <$> (pre ++ key_value k v :: post)%list)) ->
  JSString.indexOf k "=" = -1 ->
  k <> "__proto__" ->
  JSString.startsWith v JSString.dquote = false ->
  Forall (fun e' => entry_key e' <> k) post ->
  exists m : gmap string string, scan_env o = Ok m /\ m !! k = Some v.
Proof.
  intros Hget Hk Hproto Hv Hpost.
  destruct (entry_of_joined k v Hk) as [Hkey Hval].
  fold (key_value k v) in Hkey, Hval.
  exists (foldl env_round ∅ (pre ++ key_value k v :: post)%list).
  split; [by apply scan_env_strings|].
  pose proof (env_rounds_last pre post (key_value k v) ∅) as Hlast.
  rewrite Hkey, Hval in Hlast. rewrite (Hlast Hproto Hpost).
  by rewrite unquote_plain.
Qed.

Lemma plain_value_round_trip_witness :
  exists m : gmap string string,
    scan_env (env_document [url_entry; db_entry]) = Ok m /\
    m !! "URL" = Some "http://host/?a=b".
Proof.
  apply (plain_value_round_trip
           (env_document [url_entry; db_entry])
           [] [db_entry] "URL" "http://host/?a=b").
  - reflexivity.
  - reflexivity.
  - done.
  - reflexivity.
  - repeat constructor. vm_compute. done.
Defined.

(** X6: whatever [env] scans to, no key of the mapping holds an equals
    sign and no key is [__proto__]; and when [env] is a list of strings,
    every key is the part of some entry before its first equals sign. *)
Theorem env_keys_are_entry_prefixes (o : value) (m : gmap string string)
    (k : string) :
  scan_env o = Ok m ->
  is_Some (m !! k) ->
  JSString.indexOf k "=" = -1 /\
  k <> "__proto__" /\
  (forall entries : list string,
     Obj.get o "env" = Ok (VArr (VStr <$> entries)) ->
     exists e, e ∈ entries /\ entry_key e = k).
Proof.
  intros Hscan Hk.
  assert (Horigin : forall l : list string, m = foldl env_round ∅ l ->
            k <> "__proto__" /\ exists e, e ∈ l /\ entry_key e = k).
  { intros l ->. destruct (env_rounds_key_origin l ∅ k Hk) as [Hempty|Hfrom].
    - rewrite lookup_empty in Hempty. by destruct Hempty.
    - done. }
  destruct (scan_env_Ok_inv o m Hscan) as (l & Hl).
  destruct (Horigin l Hl) as (Hproto & e & _ & Hkey).
  split; [rewrite <- Hkey; apply entry_key_has_no_eq|].
  split; [done|].
  intros entries Hget. apply Horigin.
  rewrite (scan_env_strings o entries Hget) in Hscan. congruence.
Qed.

Lemma env_keys_are_entry_prefixes_witness :
  JSString.indexOf "URL" "=" = -1 /\
  "URL" <> "__proto__" /\
  exists e, e ∈ [url_entry; db_entry] /\ entry_key e = "URL".
Proof.
  destruct (env_keys_are_entry_prefixes
              (env_document [url_entry; db_entry])
              {[ "URL" := "http://host/?a=b"; "DB" := "postgres" ]} "URL")
    as (Hno_eq & Hproto & Hfrom).
  - apply (f_equal Ok). apply map_eq. intros k. vm_compute. reflexivity.
  - vm_compute. eauto.
  - split; [done|]. split; [done|]. by apply Hfrom.
Defined.

(** ** Services as a set of names *)

Lemma services_rounds_skip_proto (names : list string)
    (m : gmap string value) :
  foldl (fun m n => Obj.set n empty_object m) m names
  = foldl (fun m n => Obj.set n empty_object m) m
      (filter (fun n => n <> "__proto__") names).
Proof.
  revert m. induction names as [|n names IH]; intros m; [done|].
  destruct (decide (n = "__proto__")) as [->|Hn].
  - rewrite filter_cons_False by (intros Hne; by apply Hne). simpl.
    unfold Obj.set at 2. rewrite decide_True by done. apply IH.
  - rewrite filter_cons_True by done. simpl. apply IH.
Qed.

Lemma services_rounds_any (names : list string) :
  foldl (fun m n => Obj.set n empty_object m) ∅ names
  = gset_to_gmap empty_object
      (list_to_set (filter (fun n => n <> "__proto__") names)).
Proof.
  rewrite services_rounds_skip_proto. apply services_rounds.
  rewrite list_elem_of_filter. by intros [Hne _].
Qed.

Lemma scan_services_strings (o : value) (names : list string) :
  Obj.get o "services" = Ok (VArr (VStr <$> names)) ->
  scan_services o
  = Ok (gset_to_gmap empty_object
          (list_to_set (filter (fun n => n <> "__proto__") names))).
Proof.
  intros Hget. unfold scan_services. rewrite Hget. simpl.
  rewrite (for_of_services _ names ∅ (to_string_strings names)).
  by rewrite services_rounds_any.
Qed.

(** X7: the [services] mapping of a list of names depends on which names
    occur and on nothing else: two lists with the same members, in any order
    and with any repetitions, scan to the same mapping. *)
Theorem services_depend_on_members_only (o o' : value)
    (names names' : list string) :
  Obj.get o "services" = Ok (VArr (VStr <$> names)) ->
  Obj.get o' "services" = Ok (VArr (VStr <$> names')) ->
  (forall n, n ∈ names <-> n ∈ names') ->
  scan_services o = scan_services o'.
Proof.
  intros Hget Hget' Hsame.
  rewrite (scan_services_strings o names Hget).
  rewrite (scan_services_strings o' names' Hget').
  do 2 f_equal. apply set_eq. intros n.
  rewrite !elem_of_list_to_set, !list_elem_of_filter.
  by rewrite Hsame.
Qed.

Lemma services_depend_on_members_only_witness :
  scan_services (services_document
                   (VArr (VStr <$> ["redis"; "postgres"; "redis"])))
  = scan_services (services_document (VArr (VStr <$> ["postgres"; "redis"]))).
Proof.
  apply (services_depend_on_members_only _ _
           ["redis"; "postgres"; "redis"] ["postgres"; "redis"]).
  - reflexivity.
  - reflexivity.
  - intros n. rewrite !elem_of_cons, !elem_of_nil. tauto.
Defined.

(** X8: a single service name and the one-element list holding that name
    scan to the same mapping. *)
Theorem single_service_is_singleton_list (o o' : value) (s : string) :
  Obj.get o "services" = Ok (VStr s) ->
  Obj.get o' "services" = Ok (VArr [VStr s]) ->
  scan_services o = scan_services o'.
Proof.
  intros Hget Hget'. unfold scan_services. by rewrite Hget, Hget'.
Qed.

Lemma single_service_is_singleton_list_witness :
  scan_services (services_document (VStr "redis"))
  = scan_services (services_document (VArr [VStr "redis"])).
Proof.
  apply (single_service_is_singleton_list _ _ "redis"); reflexivity.
Defined.

Lemma scan_services_not_iterable (o raw : value) :
  Obj.get o "services" = Ok raw ->
  truthy raw = true -> iterable raw = false ->
  exists e, scan_services o = Throw e.
Proof.
  intros Hget Ht Hi. unfold scan_services. rewrite Hget. simpl.
  unfold or_else. rewrite Ht.
  destruct raw; try done; simpl; eauto.
Qed.

(** X9: when the decoded object has a [services] value that is truthy and
    neither a string nor a list (a mapping from service names to settings,
    a number, [true]), normalization throws and the scanner returns
    [undefined] with its one diagnostic, whatever the rest of the document
    holds. *)
Theorem non_iterable_services_discard_descriptor `{Parsers} (p : Project.t)
    (tr tr1 : list event) (f : File) (content : string) (o raw : value) :
  Project.getFile p ".travis.yml" = Some f ->
  getContent f = Ok content ->
  tryAsYamlThenJson content tr = (Ok o, tr1) ->
  Obj.get o "services" = Ok raw ->
  truthy raw = true ->
  iterable raw = false ->
  exists e,
    normalize (Project.name p) o = Throw e /\
    travisScanner p tr = (Ok None, (tr1 ++ [diagnostic e])%list).
Proof.
  intros Hf Hc Hd Hget Ht Hi.
  destruct (scan_services_not_iterable o raw Hget Ht Hi) as [es Hes].
  assert (Hn : exists e, normalize (Project.name p) o = Throw e).
  { unfold normalize. destruct (scan_env o) as [m|ee]; [|by eauto].
    simpl. rewrite Hes. by eauto. }
  destruct Hn as [e Hn]. exists e. split; [done|].
  by rewrite (travisScanner_unfold p f content tr Hf Hc), Hd, Hn.
Qed.

Lemma non_iterable_services_discard_descriptor_witness :
  exists e,
    normalize "demo" services_mapping_document = Throw e /\
    @travisScanner catalogue_parsers
      (project_with "demo" services_mapping_text) []
    = (Ok None, [YamlParse services_mapping_text; diagnostic e]).
Proof.
  apply (@non_iterable_services_discard_descriptor catalogue_parsers
           (project_with "demo" services_mapping_text) []
           [YamlParse services_mapping_text]
           {| getContent := Ok services_mapping_text |} services_mapping_text
           services_mapping_document
           (document [("redis", document [("image", VStr "redis:5")])]));
    reflexivity.
Defined.

(** ** Documents that are not mappings *)

(** X10: when the parser hands back [null] (or [undefined]) for the text,
    reading the first field throws, and the scanner returns [undefined]
    with its one diagnostic. *)
Theorem nullish_document_is_discarded `{Parsers} (p : Project.t)
    (tr tr1 : list event) (f : File) (content : string) (o : value) :
  Project.getFile p ".travis.yml" = Some f ->
  getContent f = Ok content ->
  tryAsYamlThenJson content tr = (Ok o, tr1) ->
  nullish o = true ->
  exists e,
    normalize (Project.name p) o = Throw e /\
    travisScanner p tr = (Ok None, (tr1 ++ [diagnostic e])%list).
Proof.
  intros Hf Hc Hd Ho.
  assert (Hn : exists e, normalize (Project.name p) o = Throw e).
  { destruct o; try done; by eexists. }
  destruct Hn as [e Hn]. exists e. split; [done|].
  by rewrite (travisScanner_unfold p f content tr Hf Hc), Hd, Hn.
Qed.

Lemma nullish_document_is_discarded_witness :
  exists e,
    normalize "demo" VNull = Throw e /\
    @travisScanner catalogue_parsers (project_with "demo" empty_text) []
    = (Ok None, [YamlParse empty_text; diagnostic e]).
Proof.
  apply (@nullish_document_is_discarded catalogue_parsers
           (project_with "demo" empty_text) [] [YamlParse empty_text]
           {| getContent := Ok empty_text |} empty_text VNull);
    reflexivity.
Defined.

(** X11: when the parser hands back a scalar or a list instead of a
    mapping, nothing throws: the scanner returns a descriptor in which
    every field is empty or absent and [canEmulate] is true, and logs
    nothing. *)
Theorem non_mapping_document_gives_empty_descriptor `{Parsers}
    (p : Project.t) (tr tr1 : list event) (f : File) (content : string)
    (o : value) :
  Project.getFile p ".travis.yml" = Some f ->
  getContent f = Ok content ->
  tryAsYamlThenJson content tr = (Ok o, tr1) ->
  is_scalar o = true \/ is_array o = true ->
  travisScanner p tr = (Ok (Some (empty_descriptor (Project.name p))), tr1).
Proof.
  intros Hf Hc Hd Ho.
  assert (Hn : normalize (Project.name p) o
               = Ok (empty_descriptor (Project.name p))).
  { destruct o; destruct Ho as [Ho|Ho]; try done. }
  by rewrite (travisScanner_unfold p f content tr Hf Hc), Hd, Hn.
Qed.

Lemma non_mapping_document_gives_empty_descriptor_witness :
  @travisScanner catalogue_parsers (project_with "demo" scalar_text) []
  = (Ok (Some (empty_descriptor "demo")), [YamlParse scalar_text]).
Proof.
  apply (@non_mapping_document_gives_empty_descriptor catalogue_parsers
           (project_with "demo" scalar_text) [] [YamlParse scalar_text]
           {| getContent := Ok scalar_text |} scalar_text (VStr scalar_text)).
  - reflexivity.
  - reflexivity.
  - reflexivity.
  - left. reflexivity.
Defined.

(** ** Branches without rules *)

(** X12: a [branches] value that is truthy and holds neither [only] nor
    [except] (a bare branch name, a list of names, an empty mapping) gives
    branch rules whose two lists are empty: what the value said is not
    kept. *)
Theorem branches_without_rules_are_empty (o b : value) :
  Obj.get o "branches" = Ok b ->
  truthy b = true ->
  (forall props, b = VObj props ->
     props !! "only" = None /\ props !! "except" = None) ->
  scan_branches o = Ok (Some {| except := []; only := [] |}) /\
  (forall pn t, normalize pn o = Ok t ->
     branches t = Some {| except := []; only := [] |}).
Proof.
  intros Hget Ht Hprops.
  assert (Hsub : Obj.get b "only" = Ok VUndefined /\
                 Obj.get b "except" = Ok VUndefined).
  { destruct b; try done. simpl.
    destruct (Hprops props eq_refl) as [-> ->]. done. }
  destruct Hsub as [Honly Hexcept].
  assert (Hscan : scan_branches o = Ok (Some {| except := []; only := [] |})).
  { unfold scan_branches. rewrite Hget. simpl. rewrite Ht.
    by rewrite Honly, Hexcept. }
  split; [done|]. intros pn t Hn.
  destruct (normalize_Ok pn o t Hn) as (_ & _ & Hb & _). congruence.
Qed.

Lemma branches_without_rules_are_empty_witness :
  scan_branches branches_name_document
  = Ok (Some {| except := []; only := [] |}) /\
  branches (descriptor_of "demo" branches_name_document)
  = Some {| except := []; only := [] |}.
Proof.
  destruct (branches_without_rules_are_empty branches_name_document
              (VStr "master")) as [Hscan Hfield].
  - reflexivity.
  - reflexivity.
  - intros props Hb. discriminate Hb.
  - split; [done|]. apply (Hfield "demo"). reflexivity.
Defined.

(** ** Where normalization can fail *)

(** X13: normalization succeeds exactly when the two loops, over [env] and
    over [services], succeed: the branch rules, the scalar-or-list fields
    and the passthrough fields never fail on their own.  When the [env]
    loop throws, its error is the one raised, whatever [services] holds;
    otherwise the error is that of the [services] loop. *)
Theorem normalize_fails_only_in_loops (pn : string) (o : value) :
  ((exists t, normalize pn o = Ok t) <->
   (exists m, scan_env o = Ok m) /\ (exists s, scan_services o = Ok s)) /\
  (forall e, scan_env o = Throw e -> normalize pn o = Throw e) /\
  (forall m e, scan_env o = Ok m -> scan_services o = Throw e ->
     normalize pn o = Throw e).
Proof.
  split; [|split].
  - split.
    + intros [t Hn]. destruct (normalize_Ok pn o t Hn) as (He & Hs & _).
      eauto.
    + intros [[m Hm] [s Hs]]. by apply (normalize_total pn o m s).
  - intros e He. unfold normalize. by rewrite He.
  - intros m e Hm Hs. unfold normalize. by rewrite Hm, Hs.
Qed.

Lemma normalize_fails_only_in_loops_witness :
  (exists t, normalize "demo" node_document = Ok t) /\
  normalize "demo" env_global_document
  = Throw (TypeError "object is not iterable") /\
  normalize "demo" services_mapping_document
  = Throw (TypeError "object is not iterable").
Proof.
  split; [|split].
  - apply (proj1 (normalize_fails_only_in_loops "demo" node_document)).
    split; eexists; reflexivity.
  - apply (proj1 (proj2 (normalize_fails_only_in_loops
                           "demo" env_global_document))).
    reflexivity.
  - apply (proj2 (proj2 (normalize_fails_only_in_loops
                           "demo" services_mapping_document)) ∅).
    + reflexivity.
    + reflexivity.
Defined.

(** ** What the scanner reports *)

Section Reports.
Context `{Parsers}.

(** The decoder's result in terms of the two parsers. *)
Lemma tryAsYamlThenJson_Ok (content : string) (tr tr1 : list event)
    (o : value) :
  tryAsYamlThenJson content tr = (Ok o, tr1) <->
  (yaml_parse content = Ok o /\ tr1 = (tr ++ [YamlParse content])%list) \/
  (exists e, yaml_parse content = Throw e /\ JSON_parse content = Ok o /\
             tr1 = (tr ++ [YamlParse content; JsonParse content])%list).
Proof.
  rewrite tryAsYamlThenJson_unfold.
  destruct (yaml_parse content) as [v|e]; split.
  - intros [= -> <-]. by left.
  - intros [[[= ->] ->]|(e & He & _)]; done.
  - intros [= Hj <-]. right. by exists e.
  - intros [[Hy _]|(e' & _ & -> & ->)]; done.
Qed.

(** A returned descriptor comes from a file that was there, was read, was
    decoded and was normalized. *)
Lemma travisScanner_Some_inv (p : Project.t) (tr tr' : list event)
    (t : TravisCi) :
  travisScanner p tr = (Ok (Some t), tr') ->
  exists f content o,
    Project.getFile p ".travis.yml" = Some f /\
    getContent f = Ok content /\
    tryAsYamlThenJson content tr = (Ok o, tr') /\
    normalize (Project.name p) o = Ok t.
Proof.
  destruct (Project.getFile p ".travis.yml") as [f|] eqn:Hf.
  - destruct (getContent f) as [content|e] eqn:Hc.
    + rewrite (travisScanner_unfold p f content tr Hf Hc).
      destruct (tryAsYamlThenJson content tr) as [[o|e] tr1] eqn:Hd; [|done].
      destruct (normalize (Project.name p) o) as [t'|e] eqn:Hn; [|done].
      intros [= <- <-]. by exists f, content, o.
    + enter_scanner Hf. by rewrite Hc.
  - by enter_scanner Hf.
Qed.

End Reports.

(** X14: when both parsers throw, the diagnostic carries the message of the
    JSON parser's error; the YAML parser's error, thrown first, is dropped
    and appears nowhere in the log. *)
Theorem diagnostic_carries_json_message `{Parsers} (p : Project.t)
    (tr : list event) (f : File) (content : string) (ey ej : error) :
  Project.getFile p ".travis.yml" = Some f ->
  getContent f = Ok content ->
  yaml_parse content = Throw ey ->
  JSON_parse content = Throw ej ->
  travisScanner p tr
  = (Ok None,
     (tr ++ [YamlParse content; JsonParse content;
             LoggerWarn "Cannot parse YAML file: %s" [message ej]])%list).
Proof.
  intros Hf Hc Hy Hj.
  rewrite (travisScanner_unfold p f content tr Hf Hc).
  rewrite tryAsYamlThenJson_unfold, Hy, Hj.
  by rewrite <- app_assoc.
Qed.

Lemma diagnostic_carries_json_message_witness :
  @travisScanner sample_parsers (project_with "demo" malformed_text) []
  = (Ok None,
     [YamlParse malformed_text; JsonParse malformed_text;
      LoggerWarn "Cannot parse YAML file: %s"
        ["Unexpected token in JSON at position 0"]]).
Proof.
  apply (@diagnostic_carries_json_message sample_parsers
           (project_with "demo" malformed_text) []
           {| getContent := Ok malformed_text |} malformed_text
           (Error "ParseException" "Malformed inline YAML string")
           (Error "SyntaxError" "Unexpected token in JSON at position 0"));
    reflexivity.
Defined.


(** X16: the scanner returns a descriptor exactly when the file is there,
    its text is read, the text decodes and the decoded value normalizes to
    that descriptor; the decoded value is the YAML parser's whenever that
    parser returns, and the JSON parser's only when the YAML parser threw. *)
Theorem scanner_returns_descriptor_iff `{Parsers} (p : Project.t)
    (tr : list event) (t : TravisCi) :
  (exists tr', travisScanner p tr = (Ok (Some t), tr')) <->
  (exists f content o,
     Project.getFile p ".travis.yml" = Some f /\
     getContent f = Ok content /\
     (yaml_parse content = Ok o \/
      (exists e, yaml_parse content = Throw e /\ JSON_parse content = Ok o)) /\
     normalize (Project.name p) o = Ok t).
Proof.
  split.
  - intros [tr' Hscan].
    destruct (travisScanner_Some_inv p tr tr' t Hscan)
      as (f & content & o & Hf & Hc & Hd & Hn).
    exists f, content, o. repeat split; try done.
    apply tryAsYamlThenJson_Ok in Hd as [[Hy _]|(e & Hy & Hj & _)]; eauto.
  - intros (f & content & o & Hf & Hc & Hd & Hn).
    rewrite (travisScanner_unfold p f content tr Hf Hc).
    rewrite tryAsYamlThenJson_unfold.
    destruct Hd as [Hy|(e & Hy & Hj)].
    + rewrite Hy, Hn. by eexists.
    + rewrite Hy, Hj, Hn. by eexists.
Qed.

Lemma scanner_returns_descriptor_iff_witness :
  exists tr',
    @travisScanner catalogue_parsers (project_with "demo" browser_text) []
    = (Ok (Some (descriptor_of "demo" addons_browser_document)), tr').
Proof.
  apply (proj2 (@scanner_returns_descriptor_iff catalogue_parsers
                  (project_with "demo" browser_text) []
                  (descriptor_of "demo" addons_browser_document))).
  exists {| getContent := Ok browser_text |}, browser_text,
         addons_browser_document.
  split; [reflexivity|]. split; [reflexivity|].
  split; [left; reflexivity | reflexivity].
Defined.

(** X17: in every descriptor the scanner returns, [language] and [addons]
    are the values the decoded object holds under those keys, unchanged and
    of whatever kind; [name] is [travis], [projectName] is the project's
    name, [tags] is the one tag [travis],
    [referencedEnvironmentVariables] is empty and [canEmulate] is set. *)
Theorem returned_descriptor_fields `{Parsers} (p : Project.t)
    (tr tr' : list event) (t : TravisCi) :
  travisScanner p tr = (Ok (Some t), tr') ->
  exists f content o,
    Project.getFile p ".travis.yml" = Some f /\
    getContent f = Ok content /\
    tryAsYamlThenJson content tr = (Ok o, tr') /\
    Obj.get o "language" = Ok (language t) /\
    Obj.get o "addons" = Ok (addons t) /\
    name t = "travis" /\
    projectName t = Project.name p /\
    tags t = ["travis"] /\
    referencedEnvironmentVariables t = [] /\
    is_Some (canEmulate t).
Proof.
  intros Hscan.
  destruct (travisScanner_Some_inv p tr tr' t Hscan)
    as (f & content & o & Hf & Hc & Hd & Hn).
  destruct (normalize_Ok _ o t Hn)
    as (_ & _ & _ & Hl & Ha & _ & _ & _ & _ & Hce & Hname & Hpn & Htags & Hrefs).
  exists f, content, o. repeat split; try done; rewrite Hce; by eexists.
Qed.

Lemma returned_descriptor_fields_witness :
  exists f content o,
    Project.getFile (project_with "demo" browser_text) ".travis.yml" = Some f /\
    getContent f = Ok content /\
    @tryAsYamlThenJson catalogue_parsers content []
    = (Ok o, [YamlParse browser_text]) /\
    Obj.get o "language"
    = Ok (language (descriptor_of "demo" addons_browser_document)) /\
    Obj.get o "addons"
    = Ok (addons (descriptor_of "demo" addons_browser_document)) /\
    name (descriptor_of "demo" addons_browser_document) = "travis" /\
    projectName (descriptor_of "demo" addons_browser_document) = "demo" /\
    tags (descriptor_of "demo" addons_browser_document) = ["travis"] /\
    referencedEnvironmentVariables
      (descriptor_of "demo" addons_browser_document) = [] /\
    is_Some (canEmulate (descriptor_of "demo" addons_browser_document)).
Proof.
  apply (@returned_descriptor_fields catalogue_parsers
           (project_with "demo" browser_text) [] [YamlParse browser_text]
           (descriptor_of "demo" addons_browser_document)).
  reflexivity.
Defined.

(** ** Edge values *)

(** X18: a value that is one double quote and nothing else is stored as
    that double quote: the stripping step leaves it as it is. *)
Theorem lone_quote_value_is_kept (o : value) (pre post : list string)
    (k : string) :
  Obj.get o "env"
  = Ok (VArr (VStr <$> (pre ++ key_value k JSString.dquote :: post)%list)) ->
  JSString.indexOf k "=" = -1 ->
  k <> "__proto__" ->
  Forall (fun e' => entry_key e' <> k) post ->
  exists m : gmap string string,
    scan_env o = Ok m /\ m !! k = Some JSString.dquote.
Proof.
  intros Hget Hk Hproto Hpost.
  destruct (entry_of_joined k JSString.dquote Hk) as [Hkey Hval].
  fold (key_value k JSString.dquote) in Hkey, Hval.
  exists (foldl env_round ∅ (pre ++ key_value k JSString.dquote :: post)%list).
  split; [by apply scan_env_strings|].
  pose proof (env_rounds_last pre post (key_value k JSString.dquote) ∅)
    as Hlast.
  rewrite Hkey, Hval in Hlast. rewrite (Hlast Hproto Hpost).
  by rewrite unquote_lone_quote.
Qed.

Lemma lone_quote_value_is_kept_witness :
  exists m : gmap string string,
    scan_env (env_document [db_entry; lone_quote_entry]) = Ok m /\
    m !! "X" = Some JSString.dquote.
Proof.
  apply (lone_quote_value_is_kept
           (env_document [db_entry; lone_quote_entry]) [db_entry] [] "X").
  - reflexivity.
  - reflexivity.
  - done.
  - constructor.
Defined.

(** X19: a falsy [env] value ([null], [false], a zero, the empty string)
    scans to the empty mapping, and so does a falsy [services] value that
    is not a string; the empty string as [services] is a service name like
    any other and gives the one-entry mapping under the empty name. *)
Theorem falsy_env_and_services (o raw : value) :
  (Obj.get o "env" = Ok raw -> truthy raw = false -> scan_env o = Ok ∅) /\
  (Obj.get o "services" = Ok raw -> truthy raw = false ->
   is_string raw = false -> scan_services o = Ok ∅) /\
  (Obj.get o "services" = Ok (VStr EmptyString) ->
   scan_services o = Ok {[ EmptyString := empty_object ]}).
Proof.
  split; [|split].
  - apply scan_env_falsy.
  - intros Hget Ht Hs. unfold scan_services. rewrite Hget. simpl.
    unfold or_else. rewrite Ht. by destruct raw.
  - intros Hget. unfold scan_services. by rewrite Hget.
Qed.

Lemma falsy_env_and_services_witness :
  scan_env services_empty_name_document = Ok ∅ /\
  scan_services branches_false_document = Ok ∅ /\
  scan_services services_empty_name_document
  = Ok {[ EmptyString := empty_object ]}.
Proof.
  split; [|split].
  - apply (proj1 (falsy_env_and_services services_empty_name_document
                    (VStr EmptyString))); reflexivity.
  - apply (proj1 (proj2 (falsy_env_and_services branches_false_document
                           VUndefined))); reflexivity.
  - apply (proj2 (proj2 (falsy_env_and_services services_empty_name_document
                           VUndefined))). reflexivity.
Defined.

(** ** Which documents normalize *)

Lemma for_of_services_entry_iff (elems : list value) (m : gmap string value) :
  (exists m', for_of services_entry elems m = Ok m') <->
  forallb stringable elems = true.
Proof.
  revert m. induction elems as [|e elems IH]; intros m.
  - split; [done | by eexists].
  - simpl. unfold services_entry at 1, stringable at 1.
    destruct (Obj.to_string e) as [k|err]; simpl.
    + apply IH.
    + split; [by intros [m' Hm'] | done].
Qed.

Lemma scan_env_accepted (o raw : value) :
  Obj.get o "env" = Ok raw ->
  (exists m, scan_env o = Ok m) <-> env_accepted raw = true.
Proof.
  intros Hget. unfold scan_env, env_accepted, or_else. rewrite Hget. simpl.
  destruct (truthy raw) eqn:Ht; simpl.
  - destruct raw as [| |b|n|s|entries|props]; simpl;
      try (split; [by intros [m Hm] | done]).
    + rewrite for_of_env_strings. split; [done | by eexists].
    + rewrite for_of_env_entry_strings_iff, forallb_forall, Forall_forall.
      split; intros Hall e He; apply Hall; by apply list_elem_of_In.
  - split; [done | by eexists].
Qed.

Lemma scan_services_accepted (o raw : value) :
  Obj.get o "services" = Ok raw ->
  (exists s, scan_services o = Ok s) <-> services_accepted raw = true.
Proof.
  intros Hget. unfold scan_services, services_accepted, or_else.
  rewrite Hget. simpl.
  destruct raw as [| |b|n|s|elems|props]; simpl;
    try (split; [done | by eexists]).
  - destruct b; simpl; [split; [by intros [m Hm] | done]|].
    split; [done | by eexists].
  - destruct (number_is_falsy n); simpl; [split; [done | by eexists]|].
    split; [by intros [m Hm] | done].
  - apply for_of_services_entry_iff.
  - split; [by intros [m Hm] | done].
Qed.

(** X20: a decoded value normalizes exactly when it is not [null] or
    [undefined], its [env] is falsy, a string or a list of strings, and its
    [services] is a string, falsy or a list of values that convert to
    property keys; the other fields never decide. *)
Theorem normalize_succeeds_iff_normalizable (pn : string) (o : value) :
  (exists t, normalize pn o = Ok t) <-> normalizable o = true.
Proof.
  destruct o as [| |b|n|s|elems|props]; simpl;
    try (split; [by intros [t Ht] | done]);
    try (split; [done | by eexists]).
  unfold normalizable. rewrite andb_true_iff.
  rewrite <- (scan_env_accepted (VObj props) _ eq_refl).
  rewrite <- (scan_services_accepted (VObj props) _ eq_refl).
  split.
  - intros [t Hn]. destruct (normalize_Ok pn _ t Hn) as (He & Hs & _). eauto.
  - intros [[m Hm] [sv Hs]]. by apply (normalize_total pn _ m sv).
Qed.

Lemma normalize_succeeds_iff_normalizable_witness :
  (exists t, normalize "demo" node_document = Ok t) /\
  ~ (exists t, normalize "demo" env_mixed_document = Ok t).
Proof.
  split.
  - apply (proj2 (normalize_succeeds_iff_normalizable "demo" node_document)).
    reflexivity.
  - intros Hn.
    apply (proj1 (normalize_succeeds_iff_normalizable
                    "demo" env_mixed_document)) in Hn.
    discriminate Hn.
Defined.
